(** * openGLTest: the rotating-triangle program of [src/main.cpp]

    A shallow embedding of [main] and [key_callback]: the program is a
    computation in a small monad that records every call it makes to the
    windowing layer (GLFW), the function loader (glad) and the graphics
    API, threads the one piece of mutable state it shares with its
    callback (the window's close flag) and can leave through [exit].
    Everything the outside world answers (whether initialisation works,
    which handles are returned, the framebuffer size, the clock and the
    input events of each frame) is read from an environment [Env].
    [run] gives the calls of [main] as long as each of them returns;
    [process] cuts that log where a graphics call is made through an
    entry point the loader has not resolved, which is where a real
    process dies. The rotation of [linmath.h] is a parameter of the
    program ([Linmath]); where its values matter it is the rotation of
    real numbers [rotation_Z]. *)

From Stdlib Require Import Reals Lra Machin.
From Stdlib Require Import ZArith List Bool String Ascii Lia.
From Stdlib Require Import Floats.SpecFloat.
Import ListNotations.
Local Open Scope Z_scope.

(** ** C [float] and [double]: IEEE 754 binary32 and binary64 *)

Module F32.
Definition prec : Z := 24.
Definition emax : Z := 128.
Definition t := spec_float.

(** [(float)i] for a C [int] [i]: round to nearest, ties to even. *)
Definition of_int (i : Z) : t := binary_normalize prec emax i 0 false.

(** [(float)d] for a C [double] [d]. *)
Definition of_double (d : spec_float) : t :=
  match d with
  | S754_finite s m e => binary_round prec emax s m e
  | _ => d
  end.

Definition div (x y : t) : t := SFdiv prec emax x y.
Definition neg (x : t) : t := SFopp x.

(** The literals [1.f] and [0.f] (and their negations). *)
Definition one : t := S754_finite false 8388608 (-23).
Definition zero : t := S754_zero false.

Definition is_zero (x : t) : bool :=
  match x with S754_zero _ => true | _ => false end.
Definition is_finite (x : t) : bool :=
  match x with S754_zero _ | S754_finite _ _ _ => true | _ => false end.
Definition is_nan (x : t) : bool :=
  match x with S754_nan => true | _ => false end.

(** A float literal given as a fraction [n/d], correctly rounded. *)
Definition lit (n d : Z) : t := div (of_int n) (of_int d).
End F32.

Definition float : Type := F32.t.
Definition double := spec_float.

(** ** Constants of the headers the program includes *)

(** [stdlib.h] *)
Definition EXIT_SUCCESS : Z := 0.
Definition EXIT_FAILURE : Z := 1.

(** [GLFW/glfw3.h]. The close flag is an [int] used as a truth value
    ([GLFW_TRUE] is 1); it is modelled as a [bool]. *)
Definition GLFW_TRUE : bool := true.
Definition GLFW_RELEASE : Z := 0.
Definition GLFW_PRESS : Z := 1.
Definition GLFW_REPEAT : Z := 2.
Definition GLFW_KEY_ESCAPE : Z := 256.

Inductive glfw_hint :=
| GLFW_CONTEXT_VERSION_MAJOR
| GLFW_CONTEXT_VERSION_MINOR
| GLFW_OPENGL_PROFILE.
Definition GLFW_OPENGL_CORE_PROFILE : Z := 0x00032001.

(** [glad/glad.h] *)
Inductive GLenum :=
| GL_ARRAY_BUFFER | GL_STATIC_DRAW
| GL_VERTEX_SHADER | GL_FRAGMENT_SHADER
| GL_FLOAT | GL_TRIANGLES | GL_COLOR_BUFFER_BIT.
Definition GL_FALSE : bool := false.

(** ** The [Vertex] struct and its layout *)

Inductive ctype :=
| Tfloat
| Tarray (elt : ctype) (n : Z).

Fixpoint sizeof (ty : ctype) : Z :=
  match ty with
  | Tfloat => 4
  | Tarray elt n => sizeof elt * n
  end.

Fixpoint alignof (ty : ctype) : Z :=
  match ty with
  | Tfloat => 4
  | Tarray elt _ => alignof elt
  end.

(** [linmath.h]: [typedef float vec2[2]], [typedef float vec3[3]]. *)
Definition vec2_t : ctype := Tarray Tfloat 2.
Definition vec3_t : ctype := Tarray Tfloat 3.

Definition align_up (n a : Z) : Z := ((n + a - 1) / a) * a.

(** Fields are laid out in declaration order, each at the next multiple
    of its alignment. *)
Fixpoint field_offsets (pos : Z) (fields : list (string * ctype))
  : list (string * Z) :=
  match fields with
  | [] => []
  | (name, ty) :: rest =>
      let off := align_up pos (alignof ty) in
      (name, off) :: field_offsets (off + sizeof ty) rest
  end.

Fixpoint struct_end (pos : Z) (fields : list (string * ctype)) : Z :=
  match fields with
  | [] => pos
  | (_, ty) :: rest => struct_end (align_up pos (alignof ty) + sizeof ty) rest
  end.

Definition struct_align (fields : list (string * ctype)) : Z :=
  fold_right (fun f a => Z.max (alignof (snd f)) a) 1 fields.

Definition struct_sizeof (fields : list (string * ctype)) : Z :=
  align_up (struct_end 0 fields) (struct_align fields).

Fixpoint assoc (name : string) (l : list (string * Z)) : option Z :=
  match l with
  | [] => None
  | (n, v) :: rest => if String.eqb name n then Some v else assoc name rest
  end.

Definition struct_offsetof (fields : list (string * ctype)) (name : string)
  : option Z := assoc name (field_offsets 0 fields).

(** [typedef struct Vertex { vec2 pos; vec3 col; } Vertex;] *)
Definition Vertex_fields : list (string * ctype) :=
  [("pos"%string, vec2_t); ("col"%string, vec3_t)].

Definition sizeof_Vertex : Z := struct_sizeof Vertex_fields.
Definition offsetof_Vertex (field : string) : Z :=
  match struct_offsetof Vertex_fields field with
  | Some off => off
  | None => 0
  end.

Record Vertex := { pos : float * float; col : float * float * float }.

Definition f32_0_6 : float := F32.lit 6 10.
Definition f32_0_4 : float := F32.lit 4 10.

Definition vertices : list Vertex :=
  [ {| pos := (F32.neg f32_0_6, F32.neg f32_0_4);
       col := (F32.one, F32.zero, F32.zero) |};
    {| pos := (f32_0_6, F32.neg f32_0_4);
       col := (F32.zero, F32.one, F32.zero) |};
    {| pos := (F32.zero, f32_0_6);
       col := (F32.zero, F32.zero, F32.one) |} ].

(** The array as it lies in memory, one [float] per 4 bytes. *)
Definition Vertex_floats (v : Vertex) : list float :=
  let '(x, y) := pos v in
  let '(r, g, b) := col v in
  [x; y; r; g; b].

Definition vertices_floats : list float := flat_map Vertex_floats vertices.
Definition sizeof_vertices : Z := sizeof_Vertex * 3.

(** ** Shader sources *)

Definition nl : string := String (ascii_of_nat 10) EmptyString.

Definition vertex_shader_text : string :=
  ("#version 330" ++ nl ++
   "uniform mat4 MVP;" ++ nl ++
   "in vec3 vCol;" ++ nl ++
   "in vec2 vPos;" ++ nl ++
   "out vec3 color;" ++ nl ++
   "void main()" ++ nl ++
   "{" ++ nl ++
   "    gl_Position = MVP * vec4(vPos, 0.0, 1.0);" ++ nl ++
   "    color = vCol;" ++ nl ++
   "}" ++ nl)%string.

Definition fragment_shader_text : string :=
  ("#version 330" ++ nl ++
   "in vec3 color;" ++ nl ++
   "out vec4 fragment;" ++ nl ++
   "void main()" ++ nl ++
   "{" ++ nl ++
   "    fragment = vec4(color, 1.0);" ++ nl ++
   "}" ++ nl)%string.

(** [error_callback]: what it prints on standard error. It is only
    installed by [main]; it changes nothing in the program. *)
Definition error_callback (error : Z) (description : string) : string :=
  ("Error: " ++ description ++ nl)%string.

(** ** The outside world *)

(** What [glfwPollEvents] can deliver. A key event runs the key callback;
    a close request (the user closing the window) makes the windowing
    layer set the close flag itself. *)
Inductive InputEvent :=
| KeyEvent (key scancode action mods : Z)
| CloseRequest.

(** The answers of the windowing layer, the loader and the graphics
    driver. The per-frame answers are indexed by the number of
    [glfwPollEvents] calls made so far. The three driver statuses are
    what [glGetShaderiv] and [glGetProgramiv] would report. *)
Record Env := {
  glfwInit_ok : bool;
  glfwCreateWindow_ok : bool;
  gladLoadGL_ok : bool;
  vertex_shader_compiles : bool;
  fragment_shader_compiles : bool;
  program_links : bool;
  new_buffer : Z;
  new_shader : GLenum -> Z;
  new_program : Z;
  new_vertex_array : Z;
  uniform_location : string -> Z;
  attrib_location : string -> Z;
  framebuffer_size : nat -> Z * Z;
  clock : nat -> double;
  pending_events : nat -> list InputEvent
}.

(** The state the program shares with its callback: the close flag of
    its one window, and how often events have been polled. *)
Record World := { should_close : bool; tick : nat }.

Definition initial_world : World := {| should_close := false; tick := 0 |}.

Definition set_should_close (v : bool) (w : World) : World :=
  {| should_close := v; tick := tick w |}.

Definition next_tick (w : World) : World :=
  {| should_close := should_close w; tick := S (tick w) |}.

(** How a computation ends when all its calls return: normally, through
    [exit], or because the loop bound of the model was reached. (A call
    that does not return is the business of [Outcome].) *)
Inductive Result (A : Type) :=
| Done (a : A) (w : World)
| Exited (status : Z)
| OutOfFuel.
Arguments Done {A} a w.
Arguments Exited {A} status.
Arguments OutOfFuel {A}.

(** ** [linmath.h]

    The header is not among the sources: its matrix type and the four
    functions [main] calls are an interface the development is
    parameterised by. Each function returns the matrix that the C
    function writes through its first argument. *)
Class Linmath := {
  mat4x4 : Type;
  mat4x4_identity : mat4x4;
  mat4x4_rotate_Z : mat4x4 -> float -> mat4x4;
  mat4x4_ortho : float -> float -> float -> float -> float -> float -> mat4x4;
  mat4x4_mul : mat4x4 -> mat4x4 -> mat4x4
}.

Section Program.

Context {LM : Linmath}.

(** What the program does, in order: the calls it makes to the
    libraries, with their arguments, and its one float division. *)
Inductive Call :=
| GlfwSetErrorCallback
| GlfwInit
| GlfwWindowHint (hint : glfw_hint) (value : Z)
| GlfwCreateWindow (width height : Z) (title : string)
| GlfwTerminate
| GlfwSetKeyCallback
| GlfwMakeContextCurrent
| GladLoadGL
| GlfwSwapInterval (interval : Z)
| GlGenBuffers (n : Z)
| GlBindBuffer (target : GLenum) (buffer : Z)
| GlBufferData (target : GLenum) (size : Z) (data : list float) (usage : GLenum)
| GlCreateShader (stage : GLenum)
| GlShaderSource (shader : Z) (count : Z) (text : string)
| GlCompileShader (shader : Z)
| GlCreateProgram
| GlAttachShader (program shader : Z)
| GlLinkProgram (program : Z)
| GlGetUniformLocation (program : Z) (name : string)
| GlGetAttribLocation (program : Z) (name : string)
| GlGenVertexArrays (n : Z)
| GlBindVertexArray (array : Z)
| GlEnableVertexAttribArray (index : Z)
| GlVertexAttribPointer (index size : Z) (type : GLenum) (normalized : bool)
                        (stride offset : Z)
| GlfwWindowShouldClose
| GlfwSetWindowShouldClose (value : bool)
| GlfwGetFramebufferSize
| GlViewport (x y width height : Z)
| GlClear (mask : GLenum)
| GlfwGetTime
| GlUseProgram (program : Z)
| GlUniformMatrix4fv (location count : Z) (transpose : bool) (value : mat4x4)
| GlDrawArrays (mode : GLenum) (first count : Z)
| GlfwSwapBuffers
| GlfwPollEvents
| GlfwDestroyWindow
| FloatDiv (dividend divisor : float).

(** *** The monad: call log, shared state, [exit] *)

Definition M (A : Type) : Type := World -> list Call * Result A.

Definition ret {A} (a : A) : M A := fun w => ([], Done a w).

Definition bind {A B} (m : M A) (k : A -> M B) : M B := fun w =>
  match m w with
  | (t, Done a w') => let (t', r) := k a w' in (t ++ t', r)
  | (t, Exited s) => (t, Exited s)
  | (t, OutOfFuel) => (t, OutOfFuel)
  end.

Notation "x <- c ;; k" := (bind c (fun x => k))
  (at level 61, c at next level, right associativity).
Notation "c ;; k" := (bind c (fun _ => k))
  (at level 61, right associativity).
Notation "' pat <- c ;; k" :=
  (bind c (fun x => match x with pat => k end))
  (at level 61, pat pattern, c at next level, right associativity).

Definition call (c : Call) : M unit := fun w => ([c], Done tt w).
Definition exit {A} (status : Z) : M A := fun _ => ([], Exited status).
Definition get_world : M World := fun w => ([], Done w w).
Definition modify_world (f : World -> World) : M unit :=
  fun w => ([], Done tt (f w)).

(** [x / y] on [float]: IEEE division, which never traps; the operands
    are logged. *)
Definition fdiv (x y : float) : M float :=
  call (FloatDiv x y) ;; ret (F32.div x y).

(** [while (cond) body], bounded by [fuel] evaluations of [cond]. *)
Fixpoint while (fuel : nat) (cond : M bool) (body : M unit) : M unit :=
  match fuel with
  | O => fun _ => ([], OutOfFuel)
  | S fuel' =>
      c <- cond ;;
      if c then body ;; while fuel' cond body else ret tt
  end.

Fixpoint for_each {A} (l : list A) (f : A -> M unit) : M unit :=
  match l with
  | [] => ret tt
  | a :: l' => f a ;; for_each l' f
  end.

Variable env : Env.

(** *** The library functions the program calls *)

Definition glfwSetErrorCallback : M unit := call GlfwSetErrorCallback.
Definition glfwInit : M bool := call GlfwInit ;; ret (glfwInit_ok env).
Definition glfwWindowHint (hint : glfw_hint) (value : Z) : M unit :=
  call (GlfwWindowHint hint value).
Definition glfwCreateWindow (width height : Z) (title : string) : M bool :=
  call (GlfwCreateWindow width height title) ;;
  ret (glfwCreateWindow_ok env).
Definition glfwTerminate : M unit := call GlfwTerminate.
Definition glfwSetKeyCallback : M unit := call GlfwSetKeyCallback.
Definition glfwMakeContextCurrent : M unit := call GlfwMakeContextCurrent.
Definition gladLoadGL : M bool := call GladLoadGL ;; ret (gladLoadGL_ok env).
Definition glfwSwapInterval (n : Z) : M unit := call (GlfwSwapInterval n).
Definition glfwDestroyWindow : M unit := call GlfwDestroyWindow.
Definition glfwSwapBuffers : M unit := call GlfwSwapBuffers.

Definition glfwWindowShouldClose : M bool :=
  call GlfwWindowShouldClose ;;
  w <- get_world ;;
  ret (should_close w).

Definition glfwSetWindowShouldClose (value : bool) : M unit :=
  call (GlfwSetWindowShouldClose value) ;;
  modify_world (set_should_close value).

Definition glfwGetFramebufferSize : M (Z * Z) :=
  call GlfwGetFramebufferSize ;;
  w <- get_world ;;
  ret (framebuffer_size env (tick w)).

Definition glfwGetTime : M double :=
  call GlfwGetTime ;;
  w <- get_world ;;
  ret (clock env (tick w)).

Definition glGenBuffers (n : Z) : M Z :=
  call (GlGenBuffers n) ;; ret (new_buffer env).
Definition glBindBuffer (target : GLenum) (buffer : Z) : M unit :=
  call (GlBindBuffer target buffer).
Definition glBufferData (target : GLenum) (size : Z) (data : list float)
  (usage : GLenum) : M unit := call (GlBufferData target size data usage).
Definition glCreateShader (stage : GLenum) : M Z :=
  call (GlCreateShader stage) ;; ret (new_shader env stage).
Definition glShaderSource (shader count : Z) (text : string) : M unit :=
  call (GlShaderSource shader count text).
Definition glCompileShader (shader : Z) : M unit :=
  call (GlCompileShader shader).
Definition glCreateProgram : M Z :=
  call GlCreateProgram ;; ret (new_program env).
Definition glAttachShader (program shader : Z) : M unit :=
  call (GlAttachShader program shader).
Definition glLinkProgram (program : Z) : M unit :=
  call (GlLinkProgram program).
Definition glGetUniformLocation (program : Z) (name : string) : M Z :=
  call (GlGetUniformLocation program name) ;; ret (uniform_location env name).
Definition glGetAttribLocation (program : Z) (name : string) : M Z :=
  call (GlGetAttribLocation program name) ;; ret (attrib_location env name).
Definition glGenVertexArrays (n : Z) : M Z :=
  call (GlGenVertexArrays n) ;; ret (new_vertex_array env).
Definition glBindVertexArray (array : Z) : M unit :=
  call (GlBindVertexArray array).
Definition glEnableVertexAttribArray (index : Z) : M unit :=
  call (GlEnableVertexAttribArray index).
Definition glVertexAttribPointer (index size : Z) (type : GLenum)
  (normalized : bool) (stride offset : Z) : M unit :=
  call (GlVertexAttribPointer index size type normalized stride offset).
Definition glViewport (x y width height : Z) : M unit :=
  call (GlViewport x y width height).
Definition glClear (mask : GLenum) : M unit := call (GlClear mask).
Definition glUseProgram (program : Z) : M unit := call (GlUseProgram program).
Definition glUniformMatrix4fv (location count : Z) (transpose : bool)
  (value : mat4x4) : M unit :=
  call (GlUniformMatrix4fv location count transpose value).
Definition glDrawArrays (mode : GLenum) (first count : Z) : M unit :=
  call (GlDrawArrays mode first count).

(** *** [key_callback]

    The program has one window, so the [window] argument is left out:
    [glfwSetWindowShouldClose] acts on the close flag of that window. *)

Definition key_callback (key scancode action mods : Z) : M unit :=
  if (key =? GLFW_KEY_ESCAPE) && (action =? GLFW_PRESS)
  then glfwSetWindowShouldClose GLFW_TRUE
  else ret tt.

(** [glfwPollEvents] hands every pending event to its handler (key
    events go to the callback installed by [glfwSetKeyCallback]) and
    returns; it never waits. *)
Definition dispatch (e : InputEvent) : M unit :=
  match e with
  | KeyEvent key scancode action mods => key_callback key scancode action mods
  | CloseRequest => modify_world (set_should_close true)
  end.

Definition glfwPollEvents : M unit :=
  call GlfwPollEvents ;;
  w <- get_world ;;
  for_each (pending_events env (tick w)) dispatch ;;
  modify_world next_tick.

(** *** [main] *)

(** The body of the [while] loop of [main]; the three arguments are the
    locals of [main] it reads. *)
Definition loop_body (program mvp_location vertex_array : Z) : M unit :=
  '(width, height) <- glfwGetFramebufferSize ;;
  ratio <- fdiv (F32.of_int width) (F32.of_int height) ;;
  glViewport 0 0 width height ;;
  glClear GL_COLOR_BUFFER_BIT ;;
  let m := mat4x4_identity in
  time <- glfwGetTime ;;
  let m := mat4x4_rotate_Z m (F32.of_double time) in
  let p := mat4x4_ortho (F32.neg ratio) ratio
             (F32.neg F32.one) F32.one F32.one (F32.neg F32.one) in
  let mvp := mat4x4_mul p m in
  glUseProgram program ;;
  glUniformMatrix4fv mvp_location 1 GL_FALSE mvp ;;
  glBindVertexArray vertex_array ;;
  glDrawArrays GL_TRIANGLES 0 3 ;;
  glfwSwapBuffers ;;
  glfwPollEvents.

Definition main (fuel : nat) : M Z :=
  glfwSetErrorCallback ;;
  ok <- glfwInit ;;
  (if negb ok then exit EXIT_FAILURE else ret tt) ;;
  glfwWindowHint GLFW_CONTEXT_VERSION_MAJOR 3 ;;
  glfwWindowHint GLFW_CONTEXT_VERSION_MINOR 3 ;;
  glfwWindowHint GLFW_OPENGL_PROFILE GLFW_OPENGL_CORE_PROFILE ;;
  window <- glfwCreateWindow 640 480 "OpenGL Triangle" ;;
  (if negb window then glfwTerminate ;; exit EXIT_FAILURE else ret tt) ;;
  glfwSetKeyCallback ;;
  glfwMakeContextCurrent ;;
  gladLoadGL ;;
  glfwSwapInterval 1 ;;
  vertex_buffer <- glGenBuffers 1 ;;
  glBindBuffer GL_ARRAY_BUFFER vertex_buffer ;;
  glBufferData GL_ARRAY_BUFFER sizeof_vertices vertices_floats GL_STATIC_DRAW ;;
  vertex_shader <- glCreateShader GL_VERTEX_SHADER ;;
  glShaderSource vertex_shader 1 vertex_shader_text ;;
  glCompileShader vertex_shader ;;
  fragment_shader <- glCreateShader GL_FRAGMENT_SHADER ;;
  glShaderSource fragment_shader 1 fragment_shader_text ;;
  glCompileShader fragment_shader ;;
  program <- glCreateProgram ;;
  glAttachShader program vertex_shader ;;
  glAttachShader program fragment_shader ;;
  glLinkProgram program ;;
  mvp_location <- glGetUniformLocation program "MVP" ;;
  vpos_location <- glGetAttribLocation program "vPos" ;;
  vcol_location <- glGetAttribLocation program "vCol" ;;
  vertex_array <- glGenVertexArrays 1 ;;
  glBindVertexArray vertex_array ;;
  glEnableVertexAttribArray vpos_location ;;
  glVertexAttribPointer vpos_location 2 GL_FLOAT GL_FALSE
    sizeof_Vertex (offsetof_Vertex "pos") ;;
  glEnableVertexAttribArray vcol_location ;;
  glVertexAttribPointer vcol_location 3 GL_FLOAT GL_FALSE
    sizeof_Vertex (offsetof_Vertex "col") ;;
  while fuel (closing <- glfwWindowShouldClose ;; ret (negb closing))
    (loop_body program mvp_location vertex_array) ;;
  glfwDestroyWindow ;;
  glfwTerminate ;;
  exit EXIT_SUCCESS.

Definition run (fuel : nat) : list Call * Result Z := main fuel initial_world.

(** *** Reading a run *)

(** The calls of the loop body when it runs as iteration [k]. *)
Definition body_calls (k : nat) : list Call :=
  fst (loop_body (new_program env) (uniform_location env "MVP")
         (new_vertex_array env) {| should_close := false; tick := k |}).

(** One iteration: the test of the loop condition, then the body. *)
Definition iteration_calls (k : nat) : list Call :=
  GlfwWindowShouldClose :: body_calls k.

(** Iterations [k], [k+1], ..., [k+n-1]. *)
Definition iterations (k n : nat) : list Call :=
  flat_map iteration_calls (seq k n).

(** Everything before the loop: with no fuel the run stops at the first
    test of the loop condition. *)
Definition setup_calls : list Call := fst (run 0).

(** The quantities of iteration [k]. *)
Definition width_at (k : nat) : Z := fst (framebuffer_size env k).
Definition height_at (k : nat) : Z := snd (framebuffer_size env k).
Definition ratio_at (k : nat) : float :=
  F32.div (F32.of_int (width_at k)) (F32.of_int (height_at k)).
Definition model_at (k : nat) : mat4x4 :=
  mat4x4_rotate_Z mat4x4_identity (F32.of_double (clock env k)).
Definition projection_at (k : nat) : mat4x4 :=
  mat4x4_ortho (F32.neg (ratio_at k)) (ratio_at k)
    (F32.neg F32.one) F32.one F32.one (F32.neg F32.one).

(** Events and the close flag. *)
Definition escape_pressed (e : InputEvent) : bool :=
  match e with
  | KeyEvent key _ action _ => (key =? GLFW_KEY_ESCAPE) && (action =? GLFW_PRESS)
  | CloseRequest => false
  end.

Definition requests_close (e : InputEvent) : bool :=
  match e with
  | KeyEvent _ _ _ _ => escape_pressed e
  | CloseRequest => true
  end.

Definition callback_calls (e : InputEvent) : list Call :=
  if escape_pressed e then [GlfwSetWindowShouldClose true] else [].

Definition poll_closes (k : nat) : bool :=
  existsb requests_close (pending_events env k).

(** The close flag after polls [k], ..., [k+n-1], starting from [c]. *)
Definition closed_from (c : bool) (k n : nat) : bool :=
  c || existsb poll_closes (seq k n).

(** The close flag at the top of iteration [n] of a run. *)
Definition closed_at (n : nat) : bool := closed_from false 0 n.

(** Projections of a call log. *)
Definition is_upload (c : Call) : bool :=
  match c with GlUniformMatrix4fv _ _ _ _ => true | _ => false end.
Definition is_attrib_pointer (c : Call) : bool :=
  match c with GlVertexAttribPointer _ _ _ _ _ _ => true | _ => false end.
Definition is_draw (c : Call) : bool :=
  match c with GlDrawArrays _ _ _ => true | _ => false end.
Definition is_set_close (c : Call) : bool :=
  match c with GlfwSetWindowShouldClose _ => true | _ => false end.
Definition is_bind_vertex_array (c : Call) : bool :=
  match c with GlBindVertexArray _ => true | _ => false end.
Definition resets_close (c : Call) : bool :=
  match c with GlfwSetWindowShouldClose v => negb v | _ => false end.
Definition divides_by_zero (c : Call) : bool :=
  match c with FloatDiv _ y => F32.is_zero y | _ => false end.

End Program.

(** ** Symbolic matrices

    An instance of the [linmath.h] parameters that computes nothing: a
    matrix is the tree of calls that built it. Concrete runs below use it,
    so that what is uploaded shows how it was computed. *)
Inductive smat :=
| SIdentity
| SRotateZ (M : smat) (angle : float)
| SOrtho (l r b t n f : float)
| SMul (a b : smat).

#[export] Instance symbolic : Linmath := {|
  mat4x4 := smat;
  mat4x4_identity := SIdentity;
  mat4x4_rotate_Z := SRotateZ;
  mat4x4_ortho := SOrtho;
  mat4x4_mul := SMul
|}.

(** ** Concrete environments *)

Module F64.
Definition prec : Z := 53.
Definition emax : Z := 1024.
(** [m * 2^e] as a [double]. *)
Definition of_scaled (m e : Z) : double := binary_normalize prec emax m e false.
End F64.

(** Everything succeeds; a 640x480 framebuffer; the clock advances by
    1/64 s per frame; the user presses A then Escape during the poll of
    the second frame. *)
Definition env_ok : Env := {|
  glfwInit_ok := true;
  glfwCreateWindow_ok := true;
  gladLoadGL_ok := true;
  vertex_shader_compiles := true;
  fragment_shader_compiles := true;
  program_links := true;
  new_buffer := 1;
  new_shader := fun stage => match stage with GL_VERTEX_SHADER => 1 | _ => 2 end;
  new_program := 3;
  new_vertex_array := 1;
  uniform_location := fun _ => 0;
  attrib_location := fun name => if String.eqb name "vPos" then 1 else 0;
  framebuffer_size := fun _ => (640, 480);
  clock := fun k => F64.of_scaled (Z.of_nat k) (-6);
  pending_events := fun k =>
    match k with
    | 1%nat => [KeyEvent 65 30 GLFW_PRESS 0; KeyEvent GLFW_KEY_ESCAPE 1 GLFW_PRESS 0]
    | _ => []
    end
|}.

Definition with_results (init window loader : bool) (e : Env) : Env := {|
  glfwInit_ok := init;
  glfwCreateWindow_ok := window;
  gladLoadGL_ok := loader;
  vertex_shader_compiles := vertex_shader_compiles e;
  fragment_shader_compiles := fragment_shader_compiles e;
  program_links := program_links e;
  new_buffer := new_buffer e;
  new_shader := new_shader e;
  new_program := new_program e;
  new_vertex_array := new_vertex_array e;
  uniform_location := uniform_location e;
  attrib_location := attrib_location e;
  framebuffer_size := framebuffer_size e;
  clock := clock e;
  pending_events := pending_events e
|}.

Definition with_shader_status (vertex fragment link : bool) (e : Env) : Env := {|
  glfwInit_ok := glfwInit_ok e;
  glfwCreateWindow_ok := glfwCreateWindow_ok e;
  gladLoadGL_ok := gladLoadGL_ok e;
  vertex_shader_compiles := vertex;
  fragment_shader_compiles := fragment;
  program_links := link;
  new_buffer := new_buffer e;
  new_shader := new_shader e;
  new_program := new_program e;
  new_vertex_array := new_vertex_array e;
  uniform_location := uniform_location e;
  attrib_location := attrib_location e;
  framebuffer_size := framebuffer_size e;
  clock := clock e;
  pending_events := pending_events e
|}.

Definition with_framebuffer (size : nat -> Z * Z) (e : Env) : Env := {|
  glfwInit_ok := glfwInit_ok e;
  glfwCreateWindow_ok := glfwCreateWindow_ok e;
  gladLoadGL_ok := gladLoadGL_ok e;
  vertex_shader_compiles := vertex_shader_compiles e;
  fragment_shader_compiles := fragment_shader_compiles e;
  program_links := program_links e;
  new_buffer := new_buffer e;
  new_shader := new_shader e;
  new_program := new_program e;
  new_vertex_array := new_vertex_array e;
  uniform_location := uniform_location e;
  attrib_location := attrib_location e;
  framebuffer_size := size;
  clock := clock e;
  pending_events := pending_events e
|}.

(** The window is minimised during the second frame. *)
Definition env_minimised : Env :=
  with_framebuffer (fun k => match k with 1%nat => (0, 0) | _ => (640, 480) end) env_ok.

(** The function loader fails: [gladLoadGL] returns 0 and resolves no
    entry point. What the program does in this world is read off
    [process], which stops at the first graphics call. *)
Definition env_no_loader : Env := with_results true true false env_ok.

(** Neither shader compiles and the program does not link. *)
Definition env_bad_shaders : Env := with_shader_status false false false env_ok.

(** What the specification asks of the aspect-ratio computation: no
    division of a run has a zero divisor. *)
Definition never_divides_by_zero {LM : Linmath} (env : Env) (fuel : nat) : Prop :=
  existsb divides_by_zero (fst (run env fuel)) = false.

(** What the specification asks after a failed initialisation step or a
    failed shader build: an exit with a nonzero status. *)
Definition exits_with_failure {LM : Linmath} (env : Env) (fuel : nat) : Prop :=
  exists status, snd (run env fuel) = Exited status /\ status <> 0.

(** The order of steps the specification gives for one pass through the
    loop body: event polling first, presenting last. *)
Definition polls_first_presents_last {LM : Linmath} (calls : list Call) : Prop :=
  hd_error calls = Some GlfwPollEvents /\
  last calls GlfwPollEvents = GlfwSwapBuffers.

(** ** Attribute fetch

    How the graphics API reads attribute [i] of a vertex from the bound
    buffer once [glVertexAttribPointer] has set [size], [stride] and
    [offset] (in bytes; one [float] takes 4): [size] consecutive floats
    starting at byte [offset + i * stride]. *)
Definition fetch_attrib (buffer : list float) (size stride offset : Z) (i : nat)
  : list float :=
  firstn (Z.to_nat size)
    (skipn (Z.to_nat ((offset + Z.of_nat i * stride) / sizeof Tfloat)) buffer).

Definition pos_floats (v : Vertex) : list float :=
  let '(x, y) := pos v in [x; y].
Definition col_floats (v : Vertex) : list float :=
  let '(r, g, b) := col v in [r; g; b].

(** ** More readings of a call log *)

(** The values of a C [int]. *)
Definition int_range (i : Z) : Prop := - 2 ^ 31 <= i < 2 ^ 31.

(** Calls into the graphics API (through the pointers the loader fills
    in), as opposed to calls into the windowing layer. *)
Definition is_graphics_call {LM : Linmath} (c : Call) : bool :=
  match c with
  | GlGenBuffers _ | GlBindBuffer _ _ | GlBufferData _ _ _ _
  | GlCreateShader _ | GlShaderSource _ _ _ | GlCompileShader _
  | GlCreateProgram | GlAttachShader _ _ | GlLinkProgram _
  | GlGetUniformLocation _ _ | GlGetAttribLocation _ _
  | GlGenVertexArrays _ | GlBindVertexArray _
  | GlEnableVertexAttribArray _ | GlVertexAttribPointer _ _ _ _ _ _
  | GlViewport _ _ _ _ | GlClear _ | GlUseProgram _
  | GlUniformMatrix4fv _ _ _ _ | GlDrawArrays _ _ _ => true
  | _ => false
  end.

(** Whether a call log keeps to the order the libraries ask for: the
    loader runs with a current context, and every graphics call is made
    with a current context and after the loader has run. [current] and
    [loaded] say what holds before the first call of the log; destroying
    the window or terminating the windowing layer ends the context. *)
Fixpoint graphics_in_context {LM : Linmath} (current loaded : bool)
  (calls : list Call) : bool :=
  match calls with
  | [] => true
  | c :: rest =>
      match c with
      | GlfwMakeContextCurrent => graphics_in_context true loaded rest
      | GladLoadGL => current && graphics_in_context current true rest
      | GlfwDestroyWindow | GlfwTerminate => graphics_in_context false false rest
      | _ =>
          (if is_graphics_call c then current && loaded else true)
          && graphics_in_context current loaded rest
      end
  end.

Definition ends_context {LM : Linmath} (c : Call) : bool :=
  match c with GlfwDestroyWindow | GlfwTerminate => true | _ => false end.
Definition is_terminate {LM : Linmath} (c : Call) : bool :=
  match c with GlfwTerminate => true | _ => false end.
Definition is_destroy_window {LM : Linmath} (c : Call) : bool :=
  match c with GlfwDestroyWindow => true | _ => false end.
Definition is_use_program {LM : Linmath} (c : Call) : bool :=
  match c with GlUseProgram _ => true | _ => false end.

(** Calls that create an object. *)
Definition is_object_creation {LM : Linmath} (c : Call) : bool :=
  match c with
  | GlfwCreateWindow _ _ _ | GlGenBuffers _ | GlCreateShader _
  | GlCreateProgram | GlGenVertexArrays _ => true
  | _ => false
  end.

(** Calls that create, fill, build or configure an object. *)
Definition is_setup_work {LM : Linmath} (c : Call) : bool :=
  match c with
  | GlfwCreateWindow _ _ _ | GlGenBuffers _ | GlBufferData _ _ _ _
  | GlCreateShader _ | GlShaderSource _ _ _ | GlCompileShader _
  | GlCreateProgram | GlAttachShader _ _ | GlLinkProgram _
  | GlGetUniformLocation _ _ | GlGetAttribLocation _ _
  | GlGenVertexArrays _ | GlEnableVertexAttribArray _
  | GlVertexAttribPointer _ _ _ _ _ _ => true
  | _ => false
  end.

Definition with_events (events : nat -> list InputEvent) (e : Env) : Env := {|
  glfwInit_ok := glfwInit_ok e;
  glfwCreateWindow_ok := glfwCreateWindow_ok e;
  gladLoadGL_ok := gladLoadGL_ok e;
  vertex_shader_compiles := vertex_shader_compiles e;
  fragment_shader_compiles := fragment_shader_compiles e;
  program_links := program_links e;
  new_buffer := new_buffer e;
  new_shader := new_shader e;
  new_program := new_program e;
  new_vertex_array := new_vertex_array e;
  uniform_location := uniform_location e;
  attrib_location := attrib_location e;
  framebuffer_size := framebuffer_size e;
  clock := clock e;
  pending_events := events
|}.

(** Nobody touches the keyboard or the window. *)
Definition env_idle : Env := with_events (fun _ => []) env_ok.

(** The user closes the window during the very first poll, with other
    input around it. *)
Definition env_closed_at_once : Env :=
  with_events (fun k =>
    match k with
    | O => [KeyEvent 65 30 GLFW_PRESS 0; CloseRequest; KeyEvent 65 30 GLFW_RELEASE 0]
    | _ => []
    end) env_ok.



(** ** What becomes of the process

    [run] lists the calls [main] makes as long as each of them returns.
    A graphics call made before its entry point is resolved does not
    return: it goes through a null function pointer, and the process
    dies there, without reaching [exit]. *)
Inductive Outcome :=
| Finished (r : Result Z)
| Crashed.

(** Modelled from the spec: the [gl*] entry points of [glad.h], which is
    not among the sources. The function loader "resolves graphics API
    entry points after context creation" and "must be called after
    context is current and before any graphics call": the entry points
    are unresolved before [gladLoadGL] has run, and stay so when it
    fails ([loader_ok] is its answer, [loaded] whether they are resolved
    by now). [crashes] says whether a log has a graphics call through an
    unresolved entry point; [calls_made] is the part of the log that is
    really made, up to and including the first such call. *)
Fixpoint crashes {LM : Linmath} (loader_ok loaded : bool)
  (calls : list Call) : bool :=
  match calls with
  | [] => false
  | c :: rest =>
      (is_graphics_call c && negb loaded)
      || crashes loader_ok
           (match c with GladLoadGL => loader_ok | _ => loaded end) rest
  end.

Fixpoint calls_made {LM : Linmath} (loader_ok loaded : bool)
  (calls : list Call) : list Call :=
  match calls with
  | [] => []
  | c :: rest =>
      if is_graphics_call c && negb loaded then [c]
      else c :: calls_made loader_ok
                  (match c with GladLoadGL => loader_ok | _ => loaded end) rest
  end.

Definition process {LM : Linmath} (env : Env) (fuel : nat)
  : list Call * Outcome :=
  let (calls, r) := run env fuel in
  (calls_made (gladLoadGL_ok env) false calls,
   if crashes (gladLoadGL_ok env) false calls then Crashed else Finished r).

(** ** The model matrix as real numbers *)

(** [m * 2^e] as a real number. *)
Definition scaled (m e : Z) : R := (IZR m * powerRZ 2 e)%R.

(** The real number a [float] or [double] stands for (0 for the
    infinities and NaN). *)
Definition F2R (x : spec_float) : R :=
  match x with
  | S754_finite s m e => if s then (- scaled (Zpos m) e)%R else scaled (Zpos m) e
  | _ => 0%R
  end.

(** Modelled from the spec: [mat4x4_rotate_Z] of [linmath.h], which is
    not among the sources, applied to the identity: "identity rotated
    about the Z axis by an angle", with the sine and cosine of real
    numbers in place of [sinf] and [cosf]. *)
Definition rotation_Z (angle : R) : list (list R) :=
  [ [cos angle; (- sin angle)%R; 0%R; 0%R];
    [sin angle; cos angle; 0%R; 0%R];
    [0%R; 0%R; 1%R; 0%R];
    [0%R; 0%R; 0%R; 1%R] ].

(** The model matrix of a frame whose clock reads [time]: [main] hands
    [(float)glfwGetTime()] to [mat4x4_rotate_Z]. *)
Definition model_matrix (time : double) : list (list R) :=
  rotation_Z (F2R (F32.of_double time)).

(** Two matrices agree entry by entry up to [tol]. *)
Definition within (tol : R) (A B : list (list R)) : Prop :=
  Forall2 (Forall2 (fun a b => (Rabs (a - b) <= tol)%R)) A B.

(** What the specification asks of the rotation: whenever the clock
    reads [t] and, later, [t + 2 pi] (as nearly as a [double] can:
    within [slack]), the two model matrices agree up to [tol]. *)
Definition periodic_in_time (slack tol : R) : Prop :=
  forall t t' : double,
    F32.is_finite t = true -> F32.is_finite t' = true ->
    (Rabs (F2R t' - F2R t - 2 * PI) <= slack)%R ->
    within tol (model_matrix t) (model_matrix t').

(** A clock reading that is 0 or of magnitude from [2^-126] up to, but
    not including, [2^n] seconds. *)
Definition clock_below (n : Z) (t : double) : Prop :=
  match t with
  | S754_zero _ => True
  | S754_finite _ m e => -125 <= Zpos (digits2_pos m) + e <= n
  | _ => False
  end.

(** [2^25] seconds, and the [double] nearest to [2^25 + 2 pi]. *)
Definition t_2_25 : double := S754_finite false 0x10000000000000 (-27).
Definition t_2_25_plus_2pi : double := S754_finite false 0x1000003243f6a9 (-27).

(** One second, and the [double] nearest to [1 + 2 pi]. *)
Definition t_1 : double := S754_finite false 0x10000000000000 (-52).
Definition t_1_plus_2pi : double := S754_finite false 0x1d21fb54442d18 (-50).

(** * Properties *)

(** ** Conversion of a nonzero [int] never gives a zero [float] *)

Lemma pow2_pred d : 0 < d -> 2 ^ d = 2 * 2 ^ (d - 1).
Proof.
  intros Hd. rewrite <- Z.pow_succ_r by lia. f_equal. lia.
Qed.

Lemma digits2_pos_bounds p :
  2 ^ (Zpos (digits2_pos p) - 1) <= Zpos p < 2 ^ Zpos (digits2_pos p).
Proof.
  induction p as [p IH|p IH|]; cbn [digits2_pos].
  - rewrite Pos2Z.inj_succ, Pos2Z.inj_xI.
    replace (Z.succ (Zpos (digits2_pos p)) - 1) with (Zpos (digits2_pos p)) by lia.
    rewrite Z.pow_succ_r by lia.
    pose proof (pow2_pred (Zpos (digits2_pos p)) ltac:(lia)). lia.
  - rewrite Pos2Z.inj_succ, (Pos2Z.inj_xO p).
    replace (Z.succ (Zpos (digits2_pos p)) - 1) with (Zpos (digits2_pos p)) by lia.
    rewrite Z.pow_succ_r by lia.
    pose proof (pow2_pred (Zpos (digits2_pos p)) ltac:(lia)). lia.
  - change (1 <= 1 < 2). lia.
Qed.

Lemma shr_1_m r : 0 <= shr_m r -> shr_m (shr_1 r) = shr_m r / 2.
Proof.
  destruct r as [m rb sb]. cbn [shr_m]. intros Hm.
  rewrite <- Z.div2_div.
  destruct m as [|[p|p|]|p]; try reflexivity; lia.
Qed.

Lemma iter_pos_shr_1_m p : forall r,
  0 <= shr_m r -> shr_m (iter_pos shr_1 p r) = shr_m r / 2 ^ Zpos p.
Proof.
  induction p as [p IH|p IH|]; intros r Hr; cbn [iter_pos].
  - assert (H1 : 0 <= shr_m (shr_1 r)) by (rewrite shr_1_m by lia; apply Z.div_pos; lia).
    assert (H2 : 0 <= shr_m (iter_pos shr_1 p (shr_1 r))).
    { rewrite IH by lia. apply Z.div_pos; [lia|]. apply Z.pow_pos_nonneg; lia. }
    rewrite IH, IH, shr_1_m by lia.
    rewrite !Z.div_div by (try apply Z.pow_pos_nonneg; lia).
    f_equal. rewrite (Pos2Z.inj_xI p).
    replace (2 * Zpos p + 1) with (1 + Zpos p + Zpos p) by lia.
    rewrite !Z.pow_add_r by lia. lia.
  - assert (H2 : 0 <= shr_m (iter_pos shr_1 p r)).
    { rewrite IH by lia. apply Z.div_pos; [lia|]. apply Z.pow_pos_nonneg; lia. }
    rewrite IH, IH by lia.
    rewrite !Z.div_div by (try apply Z.pow_pos_nonneg; lia).
    f_equal. rewrite (Pos2Z.inj_xO p).
    replace (2 * Zpos p) with (Zpos p + Zpos p) by lia.
    rewrite !Z.pow_add_r by lia. lia.
  - rewrite shr_1_m by lia. reflexivity.
Qed.

Lemma shr_fexp_pos m e l :
  0 < m -> -149 <= e ->
  0 < shr_m (fst (shr_fexp 24 128 m e l)) /\ e <= snd (shr_fexp 24 128 m e l).
Proof.
  intros Hm He. unfold shr_fexp, shr, fexp, emin.
  destruct m as [|p|p]; try lia. cbn [Zdigits2].
  pose proof (digits2_pos_bounds p) as [Hlo Hhi].
  set (d := Zpos (digits2_pos p)) in *.
  assert (Hrec : shr_m (shr_record_of_loc (Zpos p) l) = Zpos p)
    by (destruct l as [|[]]; reflexivity).
  destruct (Z.max (d + e - 24) (3 - 128 - 24) - e) as [|n|n] eqn:En;
    cbn [fst snd]; rewrite ?Hrec; try (split; lia).
  rewrite iter_pos_shr_1_m by (rewrite Hrec; lia). rewrite Hrec.
  split; [|lia].
  assert (Hn : Zpos n <= d - 1) by lia.
  apply Z.div_str_pos. split; [apply Z.pow_pos_nonneg; lia|].
  apply Z.le_trans with (2 ^ (d - 1)); [|exact Hlo].
  apply Z.pow_le_mono_r; lia.
Qed.

Lemma round_nearest_even_pos m l : 0 < m -> 0 < round_nearest_even m l.
Proof.
  intros Hm. unfold round_nearest_even.
  destruct l as [|[]]; try lia. destruct (Z.even m); lia.
Qed.

Lemma binary_round_aux_not_zero s m e l :
  0 < m -> -149 <= e ->
  match binary_round_aux 24 128 s m e l with S754_zero _ => False | _ => True end.
Proof.
  intros Hm He. unfold binary_round_aux.
  destruct (shr_fexp_pos m e l Hm He) as [H1 H1e].
  destruct (shr_fexp 24 128 m e l) as [mrs' e']. cbn [fst snd] in *.
  pose proof (round_nearest_even_pos (shr_m mrs') (loc_of_shr_record mrs') H1) as H2.
  destruct (shr_fexp_pos _ e' loc_Exact H2 ltac:(lia)) as [H3 _].
  destruct (shr_fexp 24 128 _ e' loc_Exact) as [mrs'' e'']. cbn [fst snd] in *.
  destruct (shr_m mrs''); try lia.
  now destruct (e'' <=? 128 - 24).
Qed.

Lemma binary_round_not_zero s m :
  match binary_round 24 128 s m 0 with S754_zero _ => False | _ => True end.
Proof.
  unfold binary_round, shl_align, fexp, emin.
  destruct (Z.max (Zpos (digits2_pos m) + 0 - 24) (3 - 128 - 24) - 0) eqn:E;
    apply binary_round_aux_not_zero; lia.
Qed.

Lemma of_int_is_zero (i : Z) : F32.is_zero (F32.of_int i) = (i =? 0).
Proof.
  unfold F32.of_int, binary_normalize.
  destruct i as [|p|p]; [reflexivity| |];
    [pose proof (binary_round_not_zero false p) as H
    |pose proof (binary_round_not_zero true p) as H];
    unfold F32.prec, F32.emax; cbn [Z.eqb];
    now destruct (binary_round 24 128 _ p 0).
Qed.

(** Dividing by a zero never gives a finite quotient. *)
Lemma div_by_zero_not_finite (x y : float) :
  F32.is_zero y = true -> F32.is_finite (F32.div x y) = false.
Proof. destruct y; try discriminate. now destruct x. Qed.

(** ** Rounding to [float] gives a normal number, one unit of the last
    bit away at most; the quotient of two converted [int]s is finite *)

(** The number of binary digits is fixed by the power-of-two interval. *)
Lemma digits2_pos_unique p k :
  2 ^ (k - 1) <= Zpos p < 2 ^ k -> Zpos (digits2_pos p) = k.
Proof.
  intros [Hlo Hhi]. pose proof (digits2_pos_bounds p) as [Dlo Dhi].
  set (d := Zpos (digits2_pos p)) in *.
  assert (0 < d) by (subst d; lia).
  destruct (Z.lt_trichotomy d k) as [Hlt | [Heq | Hgt]]; [|exact Heq|].
  - assert (2 ^ d <= 2 ^ (k - 1)) by (apply Z.pow_le_mono_r; lia). lia.
  - destruct (Z.le_gt_cases 0 k) as [Hk|Hk].
    + assert (2 ^ k <= 2 ^ (d - 1)) by (apply Z.pow_le_mono_r; lia). lia.
    + rewrite (Z.pow_neg_r 2 k) in Hhi by lia. lia.
Qed.

Lemma iter_xO_pow p n : Zpos (Pos.iter xO p n) = Zpos p * 2 ^ Zpos n.
Proof.
  induction n as [|n IH] using Pos.peano_ind.
  - cbn [Pos.iter]. rewrite (Pos2Z.inj_xO p). change (2 ^ 1) with 2. lia.
  - rewrite Pos.iter_succ, (Pos2Z.inj_xO (Pos.iter xO p n)), IH, Pos2Z.inj_succ,
      Z.pow_succ_r by lia. lia.
Qed.

Lemma shr_fexp_normal m e l :
  2 ^ 23 <= m -> -125 <= Zdigits2 m + e ->
  snd (shr_fexp 24 128 m e l) = Zdigits2 m + e - 24 /\
  shr_m (fst (shr_fexp 24 128 m e l)) = m / 2 ^ (Zdigits2 m - 24) /\
  2 ^ 23 <= shr_m (fst (shr_fexp 24 128 m e l)) < 2 ^ 24 /\
  24 <= Zdigits2 m.
Proof.
  intros Hm He. unfold shr_fexp, shr, fexp, emin.
  destruct m as [|p|p]; try (cbn in Hm; lia). cbn [Zdigits2] in *.
  pose proof (digits2_pos_bounds p) as [Hlo Hhi].
  set (d := Zpos (digits2_pos p)) in *.
  assert (Hd : 24 <= d).
  { destruct (Z.le_gt_cases 24 d) as [H|H]; [exact H|].
    assert (2 ^ d <= 2 ^ 23) by (apply Z.pow_le_mono_r; lia). lia. }
  assert (Hrec : shr_m (shr_record_of_loc (Zpos p) l) = Zpos p)
    by (destruct l as [|[]]; reflexivity).
  replace (Z.max (d + e - 24) (3 - 128 - 24) - e) with (d - 24) by lia.
  destruct (d - 24) as [|n|n] eqn:En; cbn [fst snd]; try lia.
  - rewrite Hrec, Z.pow_0_r, Z.div_1_r. replace d with 24 in * by lia. lia.
  - rewrite iter_pos_shr_1_m by (rewrite Hrec; lia). rewrite Hrec.
    assert (Hpow : 2 ^ d = 2 ^ 24 * 2 ^ Zpos n)
      by (rewrite <- Z.pow_add_r by lia; f_equal; lia).
    assert (Hpow' : 2 ^ (d - 1) = 2 ^ 23 * 2 ^ Zpos n)
      by (rewrite <- Z.pow_add_r by lia; f_equal; lia).
    assert (0 < 2 ^ Zpos n) by (apply Z.pow_pos_nonneg; lia).
    split; [lia|]. split; [reflexivity|]. split; [|lia]. split.
    + apply Z.div_le_lower_bound; lia.
    + apply Z.div_lt_upper_bound; lia.
Qed.

Lemma round_nearest_even_range m l :
  m <= round_nearest_even m l <= m + 1.
Proof.
  unfold round_nearest_even. destruct l as [|[]]; try lia.
  destruct (Z.even m); lia.
Qed.

Lemma digits2_le_25 m : 0 < m <= 2 ^ 24 -> Zdigits2 m <= 25.
Proof.
  intros Hm. destruct m as [|p|p]; try lia. cbn [Zdigits2].
  pose proof (digits2_pos_bounds p) as [Hlo _].
  destruct (Z.le_gt_cases (Zpos (digits2_pos p)) 25) as [H|H]; [exact H|].
  assert (2 ^ 25 <= 2 ^ (Zpos (digits2_pos p) - 1)) by (apply Z.pow_le_mono_r; lia).
  lia.
Qed.

Lemma digits2_ge_24 m : 2 ^ 23 <= m -> 24 <= Zdigits2 m.
Proof.
  intros Hm. destruct m as [|p|p]; try (cbn in Hm; lia). cbn [Zdigits2].
  pose proof (digits2_pos_bounds p) as [_ Hhi].
  destruct (Z.le_gt_cases 24 (Zpos (digits2_pos p))) as [H|H]; [exact H|].
  assert (2 ^ Zpos (digits2_pos p) <= 2 ^ 23) by (apply Z.pow_le_mono_r; lia).
  lia.
Qed.

(** Rounding a mantissa of at least 24 bits gives a normal number; its
    exponent is the expected one, or one more after a carry; and it is
    off by at most one unit of the 24th bit. *)
Lemma binary_round_aux_normal s m e l :
  2 ^ 23 <= m -> -125 <= Zdigits2 m + e <= 100 ->
  exists m' e',
    binary_round_aux 24 128 s m e l = S754_finite s m' e' /\
    2 ^ 23 <= Zpos m' < 2 ^ 24 /\
    Zdigits2 m + e - 24 <= e' <= Zdigits2 m + e - 23 /\
    e <= e' /\
    Z.abs (Zpos m' * 2 ^ (e' - e) - m) <= 2 ^ (Zdigits2 m - 24).
Proof.
  intros Hm Hde. unfold binary_round_aux.
  destruct (shr_fexp_normal m e l Hm ltac:(lia)) as (He1 & Hv1 & Hm1 & Hd).
  destruct (shr_fexp 24 128 m e l) as [mrs' e1]. cbn [fst snd] in *.
  pose proof (round_nearest_even_range (shr_m mrs') (loc_of_shr_record mrs')) as Hr.
  set (m2 := round_nearest_even (shr_m mrs') (loc_of_shr_record mrs')) in *.
  clearbody m2.
  assert (Hd2' : Zdigits2 m2 <= 25) by (apply digits2_le_25; lia).
  destruct (shr_fexp_normal m2 e1 loc_Exact ltac:(lia)) as (He2 & Hv2 & Hm3 & Hd2);
    [pose proof (digits2_ge_24 m2 ltac:(lia)); lia|].
  destruct (shr_fexp 24 128 m2 e1 loc_Exact) as [mrs'' e2]. cbn [fst snd] in *.
  destruct (shr_m mrs'') as [|m'|m'] eqn:Em; try lia.
  exists m', e2.
  replace (e2 <=? 128 - 24) with true by (symmetry; apply Z.leb_le; lia).
  split; [reflexivity|]. split; [lia|]. split; [lia|]. split; [lia|].
  set (k := Zdigits2 m - 24) in *.
  assert (Hk : 0 <= k) by (subst k; lia).
  assert (Hpk : 0 < 2 ^ k) by (apply Z.pow_pos_nonneg; lia).
  pose proof (Z.div_mod m (2 ^ k) ltac:(lia)) as Hdm.
  pose proof (Z.mod_pos_bound m (2 ^ k) Hpk) as Hmod.
  assert (Hexact : Zpos m' * 2 ^ (Zdigits2 m2 - 24) = m2).
  { destruct (Z.eq_dec (Zdigits2 m2) 24) as [E|E].
    - rewrite E in *. rewrite Z.sub_diag, Z.pow_0_r in *.
      rewrite Z.div_1_r in Hv2. lia.
    - assert (E25 : Zdigits2 m2 = 25) by lia. rewrite E25 in *.
      change (2 ^ (25 - 24)) with 2 in *.
      assert (m2 = 2 ^ 24).
      { destruct m2 as [|p2|p2]; try lia. cbn [Zdigits2] in E25.
        pose proof (digits2_pos_bounds p2) as [Hlo2 _]. rewrite E25 in Hlo2.
        change (2 ^ (25 - 1)) with (2 ^ 24) in Hlo2. lia. }
      subst m2. rewrite Hv2. reflexivity. }
  replace (e2 - e) with ((Zdigits2 m2 - 24) + k) by lia.
  rewrite Z.pow_add_r, Z.mul_assoc, Hexact by lia.
  rewrite Hv1 in Hr. nia.
Qed.

(** *** Values *)

Local Open Scope R_scope.

Lemma IZR_pow2 z : (0 <= z)%Z -> IZR (2 ^ z) = powerRZ 2 z.
Proof.
  intros Hz. destruct z as [|p|p]; [reflexivity| |lia].
  unfold powerRZ. rewrite pow_IZR. f_equal. now rewrite positive_nat_Z.
Qed.

Lemma powerRZ_2_pos z : 0 < powerRZ 2 z.
Proof. apply powerRZ_lt. lra. Qed.

Lemma scaled_shift m j e : (0 <= j)%Z -> scaled (m * 2 ^ j) (e - j) = scaled m e.
Proof.
  intros Hj. unfold scaled. rewrite mult_IZR, IZR_pow2 by lia.
  replace e with ((e - j) + j)%Z at 2 by lia.
  rewrite (powerRZ_add 2 (e - j) j) by lra. ring.
Qed.

Lemma scaled_error m m' e e' k :
  (e <= e')%Z -> (0 <= k)%Z ->
  (Z.abs (m' * 2 ^ (e' - e) - m) <= 2 ^ k)%Z ->
  Rabs (scaled m' e' - scaled m e) <= powerRZ 2 (k + e).
Proof.
  intros He Hk Habs.
  rewrite <- (scaled_shift m' (e' - e) e') by lia.
  replace (e' - (e' - e))%Z with e by lia.
  unfold scaled. rewrite <- Rmult_minus_distr_r, <- minus_IZR.
  rewrite Rabs_mult, (Rabs_pos_eq (powerRZ 2 e)) by (left; apply powerRZ_2_pos).
  rewrite powerRZ_add by lra. rewrite <- abs_IZR.
  apply Rmult_le_compat_r; [left; apply powerRZ_2_pos|].
  rewrite <- IZR_pow2 by lia. now apply IZR_le.
Qed.

Local Close Scope R_scope.

(** Rounding any number of magnitude at least [2^-126] and below [2^100]
    to [float] gives a normal number: 24 significant bits, the rest of
    the magnitude in the exponent; the result is off by at most one unit
    of its last bit. *)
Lemma binary_round_normal s p e :
  -125 <= Zpos (digits2_pos p) + e <= 100 ->
  exists m' e',
    binary_round 24 128 s p e = S754_finite s m' e' /\
    2 ^ 23 <= Zpos m' < 2 ^ 24 /\
    Zpos (digits2_pos p) + e - 24 <= e' <= Zpos (digits2_pos p) + e - 23 /\
    (Rabs (scaled (Zpos m') e' - scaled (Zpos p) e)
     <= powerRZ 2 (Zpos (digits2_pos p) + e - 24))%R.
Proof.
  intros Hn. unfold binary_round, shl_align, fexp, emin.
  pose proof (digits2_pos_bounds p) as [Hlo Hhi].
  set (d := Zpos (digits2_pos p)) in *.
  assert (Hd0 : 0 < d) by (subst d; lia).
  replace (Z.max (d + e - 24) (3 - 128 - 24)) with (d + e - 24) by lia.
  replace (d + e - 24 - e) with (d - 24) by lia.
  assert (Hge : 24 <= d -> 2 ^ 23 <= Zpos p).
  { intros H. apply Z.le_trans with (2 ^ (d - 1)); [apply Z.pow_le_mono_r; lia | exact Hlo]. }
  destruct (d - 24) as [|n|n] eqn:En.
  1,2: destruct (binary_round_aux_normal s (Zpos p) e loc_Exact ltac:(lia))
        as (m' & e' & Heq & Hm & He' & Hle & Hv); [cbn [Zdigits2]; fold d; lia|];
      cbn [Zdigits2] in He', Hv; fold d in He', Hv;
      exists m', e'; split; [exact Heq|]; split; [exact Hm|]; split; [lia|];
      replace (d + e - 24) with ((d - 24) + e) by lia;
      apply scaled_error; [exact Hle | lia | exact Hv].
  assert (Hmz : 2 ^ 23 <= Zpos (Pos.iter xO p n) < 2 ^ 24).
  { rewrite iter_xO_pow.
    assert (0 < 2 ^ Zpos n) by (apply Z.pow_pos_nonneg; lia).
    assert (H24 : 2 ^ 24 = 2 ^ d * 2 ^ Zpos n)
      by (rewrite <- Z.pow_add_r by lia; f_equal; lia).
    assert (H23 : 2 ^ 23 = 2 ^ (d - 1) * 2 ^ Zpos n)
      by (rewrite <- Z.pow_add_r by lia; f_equal; lia).
    rewrite H24, H23. split; [apply Z.mul_le_mono_nonneg_r; lia|].
    apply Z.mul_lt_mono_pos_r; lia. }
  assert (Hdz : Zdigits2 (Zpos (Pos.iter xO p n)) = 24)
    by (cbn [Zdigits2]; apply digits2_pos_unique; exact Hmz).
  destruct (binary_round_aux_normal s (Zpos (Pos.iter xO p n)) (d + e - 24) loc_Exact
              ltac:(lia) ltac:(lia)) as (m' & e' & Heq & Hm & He' & Hle & Hv).
  rewrite Hdz in He', Hv.
  exists m', e'. split; [exact Heq|]. split; [exact Hm|]. split; [lia|].
  rewrite <- (scaled_shift (Zpos p) (Zpos n) e) by lia.
  rewrite <- iter_xO_pow. replace (e - Zpos n) with (d + e - 24) by lia.
  pose proof (scaled_error (Zpos (Pos.iter xO p n)) (Zpos m') (d + e - 24) e'
                (24 - 24) Hle ltac:(lia) Hv) as Hs.
  replace (24 - 24 + (d + e - 24)) with (d + e - 24) in Hs by lia. exact Hs.
Qed.

Lemma binary_round_int_normal s p :
  Zpos p <= 2 ^ 31 ->
  exists m e,
    binary_round 24 128 s p 0 = S754_finite s m e /\
    2 ^ 23 <= Zpos m < 2 ^ 24 /\ -23 <= e <= 9.
Proof.
  intros Hp. pose proof (digits2_pos_bounds p) as [Hlo Hhi].
  assert (Hd : Zpos (digits2_pos p) <= 32).
  { destruct (Z.le_gt_cases (Zpos (digits2_pos p)) 32) as [H|H]; [exact H|].
    assert (2 ^ 32 <= 2 ^ (Zpos (digits2_pos p) - 1)) by (apply Z.pow_le_mono_r; lia).
    lia. }
  destruct (binary_round_normal s p 0 ltac:(lia)) as (m & e & Heq & Hm & He & _).
  exists m, e. split; [exact Heq|]. split; [exact Hm|]. lia.
Qed.

Lemma of_int_normal i :
  i <> 0 -> - 2 ^ 31 <= i < 2 ^ 31 ->
  exists m e,
    F32.of_int i = S754_finite (i <? 0) m e /\
    2 ^ 23 <= Zpos m < 2 ^ 24 /\ -23 <= e <= 9.
Proof.
  intros Hi Hrange. unfold F32.of_int, binary_normalize, F32.prec, F32.emax.
  destruct i as [|p|p]; [lia| |].
  - apply binary_round_int_normal. lia.
  - apply binary_round_int_normal. lia.
Qed.

(** The quotient of two normal numbers with small exponents is finite. *)
Lemma div_normal_finite sx mx ex sy my ey :
  2 ^ 23 <= Zpos mx < 2 ^ 24 -> -23 <= ex <= 9 ->
  2 ^ 23 <= Zpos my < 2 ^ 24 -> -23 <= ey <= 9 ->
  exists m e,
    SFdiv 24 128 (S754_finite sx mx ex) (S754_finite sy my ey)
    = S754_finite (xorb sx sy) m e.
Proof.
  intros Hmx Hex Hmy Hey. unfold SFdiv, SFdiv_core_binary, fexp, emin.
  cbn [Zdigits2].
  rewrite (digits2_pos_unique mx 24), (digits2_pos_unique my 24) by (cbn; lia).
  replace (Z.min (Z.max (24 + ex - (24 + ey) - 24) (3 - 128 - 24)) (ex - ey))
    with (ex - ey - 24) by lia.
  replace (ex - ey - (ex - ey - 24)) with 24 by lia.
  rewrite Z.shiftl_mul_pow2 by lia.
  pose proof (Z.div_eucl_eq (Zpos mx * 2 ^ 24) (Zpos my) ltac:(lia)) as Hdiv.
  pose proof (Z.mod_pos_bound (Zpos mx * 2 ^ 24) (Zpos my) ltac:(lia)) as Hmod.
  unfold Z.modulo in Hmod.
  destruct (Z.div_eucl (Zpos mx * 2 ^ 24) (Zpos my)) as [q r].
  assert (Hq : 2 ^ 23 <= q < 2 ^ 25) by nia.
  assert (Hdq : Zdigits2 q <= 25).
  { destruct q as [|p|p]; try lia. cbn [Zdigits2].
    pose proof (digits2_pos_bounds p) as [Hlo _].
    destruct (Z.le_gt_cases (Zpos (digits2_pos p)) 25) as [H|H]; [exact H|].
    assert (2 ^ 25 <= 2 ^ (Zpos (digits2_pos p) - 1)) by (apply Z.pow_le_mono_r; lia).
    lia. }
  pose proof (digits2_ge_24 q ltac:(lia)) as Hdq'.
  destruct (binary_round_aux_normal (xorb sx sy) q (ex - ey - 24)
              (new_location (Zpos my) r) ltac:(lia) ltac:(lia))
    as (m & e & Heq & _).
  now exists m, e.
Qed.

(** ** Rotations *)

Local Open Scope R_scope.

Lemma PI_upper : PI < 3143 / 1000.
Proof.
  pose proof (PI_2_3_7_ineq 1) as [_ H].
  unfold sum_f_R0, tg_alt, PI_2_3_7_tg, Ratan_seq in H. simpl in H.
  lra.
Qed.

Lemma PI_lower : 3141 / 1000 < PI.
Proof.
  pose proof (PI_2_3_7_ineq 1) as [H _].
  unfold sum_f_R0, tg_alt, PI_2_3_7_tg, Ratan_seq in H. simpl in H.
  lra.
Qed.

Lemma Rabs_sin_le x : Rabs (sin x) <= Rabs x.
Proof.
  assert (Hpos : forall y, 0 < y -> Rabs (sin y) <= y).
  { intros y Hy. destruct (Rle_lt_dec 1 y) as [H1|H1].
    - pose proof (SIN_bound y) as [Hl Hu]. apply Rabs_le. lra.
    - assert (0 < sin y) by (apply sin_gt_0; [lra | pose proof PI_lower; lra]).
      rewrite Rabs_pos_eq by lra. left. now apply sin_lt_x. }
  destruct (Rtotal_order x 0) as [Hneg | [-> | Hp]].
  - rewrite <- (Ropp_involutive x) at 1. rewrite sin_neg, Rabs_Ropp.
    rewrite (Rabs_left x) by lra. apply Hpos. lra.
  - rewrite sin_0, Rabs_R0. lra.
  - rewrite (Rabs_pos_eq x) by lra. now apply Hpos.
Qed.

Lemma cos_lipschitz x y : Rabs (cos x - cos y) <= Rabs (x - y).
Proof.
  rewrite form2.
  replace (-2 * sin ((x - y) / 2) * sin ((x + y) / 2))
    with (- (2 * (sin ((x - y) / 2) * sin ((x + y) / 2)))) by ring.
  rewrite Rabs_Ropp, Rabs_mult, Rabs_mult, (Rabs_pos_eq 2) by lra.
  pose proof (Rabs_sin_le ((x - y) / 2)) as H1.
  pose proof (SIN_bound ((x + y) / 2)) as [Hl Hu].
  assert (H2 : Rabs (sin ((x + y) / 2)) <= 1) by (apply Rabs_le; lra).
  assert (H3 : Rabs ((x - y) / 2) = Rabs (x - y) / 2).
  { unfold Rdiv. rewrite Rabs_mult, (Rabs_pos_eq (/ 2)) by lra. reflexivity. }
  pose proof (Rabs_pos (sin ((x - y) / 2))).
  pose proof (Rabs_pos (sin ((x + y) / 2))).
  nra.
Qed.

Lemma sin_lipschitz x y : Rabs (sin x - sin y) <= Rabs (x - y).
Proof.
  rewrite form4.
  rewrite Rabs_mult, Rabs_mult, (Rabs_pos_eq 2) by lra.
  pose proof (Rabs_sin_le ((x - y) / 2)) as H1.
  pose proof (COS_bound ((x + y) / 2)) as [Hl Hu].
  assert (H2 : Rabs (cos ((x + y) / 2)) <= 1) by (apply Rabs_le; lra).
  assert (H3 : Rabs ((x - y) / 2) = Rabs (x - y) / 2).
  { unfold Rdiv. rewrite Rabs_mult, (Rabs_pos_eq (/ 2)) by lra. reflexivity. }
  pose proof (Rabs_pos (sin ((x - y) / 2))).
  pose proof (Rabs_pos (cos ((x + y) / 2))).
  nra.
Qed.

Lemma cos_2PI_shift x : cos (x + 2 * PI) = cos x.
Proof. rewrite cos_plus, cos_2PI, sin_2PI. ring. Qed.

Lemma sin_2PI_shift x : sin (x + 2 * PI) = sin x.
Proof. rewrite sin_plus, cos_2PI, sin_2PI. ring. Qed.

Lemma cos_8_neg : cos 8 < 0.
Proof.
  replace 8 with ((8 - 2 * PI) + 2 * PI) by ring.
  rewrite cos_2PI_shift.
  pose proof PI_upper. pose proof PI_lower.
  apply cos_lt_0; lra.
Qed.

Lemma Rabs_le_inv a b : Rabs a <= b -> - b <= a <= b.
Proof. unfold Rabs. destruct (Rcase_abs a); lra. Qed.

(** Two rotations whose angles differ by 8 radians are far apart. *)
Lemma rotations_8_apart a :
  Rabs (cos (a + 8) - cos a) <= 1 -> Rabs (sin (a + 8) - sin a) <= 1 -> False.
Proof.
  intros Hc Hs.
  pose proof cos_8_neg as H8.
  pose proof (sin2_cos2 a) as Ha. pose proof (sin2_cos2 8) as Hb.
  unfold Rsqr in Ha, Hb.
  rewrite cos_plus in Hc. rewrite sin_plus in Hs.
  apply Rabs_le_inv in Hc. apply Rabs_le_inv in Hs.
  set (c := cos a) in *. set (s := sin a) in *.
  set (C := cos 8) in *. set (S := sin 8) in *.
  assert (Hid : (c * C - s * S - c) * (c * C - s * S - c)
                + (s * C + c * S - s) * (s * C + c * S - s) = 2 - 2 * C).
  { replace ((c * C - s * S - c) * (c * C - s * S - c)
             + (s * C + c * S - s) * (s * C + c * S - s))
      with ((s * s + c * c) * (S * S + C * C) + (s * s + c * c)
            - 2 * C * (s * s + c * c)) by ring.
    rewrite Ha, Hb. ring. }
  nra.
Qed.

(** *** Angles [2 pi] apart, up to rounding *)

Lemma powerRZ_2_le a b : (a <= b)%Z -> powerRZ 2 a <= powerRZ 2 b.
Proof.
  intros Hab. replace b with (a + (b - a))%Z by lia.
  rewrite powerRZ_add by lra.
  rewrite <- (IZR_pow2 (b - a)) by lia.
  pose proof (powerRZ_2_pos a) as Ha.
  assert (1 <= IZR (2 ^ (b - a))).
  { apply IZR_le. pose proof (Z.pow_pos_nonneg 2 (b - a)). lia. }
  nra.
Qed.

Lemma powerRZ_2_neg p : powerRZ 2 (Zneg p) = / IZR (2 ^ Zpos p).
Proof. unfold powerRZ. now rewrite pow_IZR, positive_nat_Z. Qed.

Lemma powerRZ_2_double z : 2 * powerRZ 2 (z - 1) = powerRZ 2 z.
Proof.
  replace z with ((z - 1) + 1)%Z at 2 by lia.
  rewrite powerRZ_add by lra. rewrite powerRZ_1. ring.
Qed.

(** The conversion of a clock reading below [2^n] seconds to [float]
    moves it by at most [2^(n-24)]. *)
Lemma of_double_error n t :
  (n <= 100)%Z -> clock_below n t ->
  Rabs (F2R (F32.of_double t) - F2R t) <= powerRZ 2 (n - 24).
Proof.
  intros Hn Ht. destruct t as [s| | |s m e]; unfold clock_below in Ht;
    try contradiction.
  - cbn [F2R F32.of_double]. rewrite Rminus_diag, Rabs_R0.
    apply Rlt_le, powerRZ_2_pos.
  - unfold F32.of_double, F32.prec, F32.emax.
    assert (Hd : (-125 <= Zpos (digits2_pos m) + e <= 100)%Z) by lia.
    destruct (binary_round_normal s m e Hd) as (m' & e' & -> & _ & _ & Herr).
    eapply Rle_trans; [|apply (powerRZ_2_le (Zpos (digits2_pos m) + e - 24)); lia].
    cbn [F2R]. destruct s; [|exact Herr].
    replace (- scaled (Z.pos m') e' - - scaled (Z.pos m) e)
      with (- (scaled (Z.pos m') e' - scaled (Z.pos m) e)) by ring.
    now rewrite Rabs_Ropp.
Qed.

(** Angles that are [2 pi] apart up to [d] give sines and cosines that
    agree up to [d]. *)
Lemma cos_near_period a a' d : Rabs (a' - a - 2 * PI) <= d -> Rabs (cos a - cos a') <= d.
Proof.
  intros H. rewrite <- (cos_2PI_shift a).
  eapply Rle_trans; [apply cos_lipschitz|].
  replace (a + 2 * PI - a') with (- (a' - a - 2 * PI)) by ring.
  now rewrite Rabs_Ropp.
Qed.

Lemma sin_near_period a a' d : Rabs (a' - a - 2 * PI) <= d -> Rabs (sin a - sin a') <= d.
Proof.
  intros H. rewrite <- (sin_2PI_shift a).
  eapply Rle_trans; [apply sin_lipschitz|].
  replace (a + 2 * PI - a') with (- (a' - a - 2 * PI)) by ring.
  now rewrite Rabs_Ropp.
Qed.

Lemma rotation_Z_near_period a a' d :
  Rabs (a' - a - 2 * PI) <= d -> within d (rotation_Z a) (rotation_Z a').
Proof.
  intros H.
  pose proof (cos_near_period a a' d H) as Hc.
  pose proof (sin_near_period a a' d H) as Hs.
  assert (Hd : 0 <= d) by (pose proof (Rabs_pos (a' - a - 2 * PI)); lra).
  assert (H0 : Rabs (0 - 0) <= d) by (rewrite Rminus_diag, Rabs_R0; exact Hd).
  assert (H1 : Rabs (1 - 1) <= d) by (rewrite Rminus_diag, Rabs_R0; exact Hd).
  assert (Hn : Rabs (- sin a - - sin a') <= d).
  { replace (- sin a - - sin a') with (- (sin a - sin a')) by ring.
    now rewrite Rabs_Ropp. }
  unfold within, rotation_Z.
  repeat (apply Forall2_cons || apply Forall2_nil); assumption.
Qed.

Lemma rotation_Z_period a : rotation_Z (a + 2 * PI) = rotation_Z a.
Proof. unfold rotation_Z. now rewrite cos_2PI_shift, sin_2PI_shift. Qed.

Local Close Scope R_scope.

Section Facts.

Context {LM : Linmath}.
Variable env : Env.

Notation "x <- c ;; k" := (bind c (fun x => k))
  (at level 61, c at next level, right associativity).

Lemma bind_unfold {A B} (m : M A) (k : A -> M B) w :
  bind m k w =
  match m w with
  | (t, Done a w') => let (t', r) := k a w' in (t ++ t', r)
  | (t, Exited s) => (t, Exited s)
  | (t, OutOfFuel) => (t, OutOfFuel)
  end.
Proof. reflexivity. Qed.

(** ** The callback and the poll *)

Lemma key_callback_run key scancode action mods w :
  key_callback key scancode action mods w =
  (callback_calls (KeyEvent key scancode action mods),
   Done tt (set_should_close
              (should_close w || requests_close (KeyEvent key scancode action mods)) w)).
Proof.
  unfold key_callback, callback_calls, requests_close, escape_pressed.
  destruct ((key =? GLFW_KEY_ESCAPE) && (action =? GLFW_PRESS)); destruct w as [c k]; cbn.
  - now rewrite orb_true_r.
  - now rewrite orb_false_r.
Qed.

Lemma dispatch_run e w :
  dispatch e w =
  (callback_calls e,
   Done tt (set_should_close (should_close w || requests_close e) w)).
Proof.
  destruct e as [key scancode action mods|].
  - apply key_callback_run.
  - destruct w as [c k]; cbn. now rewrite orb_true_r.
Qed.

Lemma for_each_dispatch evs : forall w,
  for_each evs dispatch w =
  (flat_map callback_calls evs,
   Done tt (set_should_close (should_close w || existsb requests_close evs) w)).
Proof.
  induction evs as [|e evs IH]; intros [c k].
  - cbn. now rewrite orb_false_r.
  - cbn [for_each]. unfold bind at 1. rewrite dispatch_run.
    rewrite IH. cbn. now rewrite orb_assoc.
Qed.

Lemma glfwPollEvents_run w :
  glfwPollEvents env w =
  (GlfwPollEvents :: flat_map callback_calls (pending_events env (tick w)),
   Done tt {| should_close := should_close w || poll_closes env (tick w);
              tick := S (tick w) |}).
Proof.
  unfold glfwPollEvents, poll_closes. destruct w as [c k].
  unfold bind, call, get_world. cbn [fst snd app].
  rewrite for_each_dispatch. cbn. now rewrite app_nil_r.
Qed.

(** ** One pass through the loop body *)

Lemma loop_body_run program mvp_location vertex_array w :
  loop_body env program mvp_location vertex_array w =
  ([ GlfwGetFramebufferSize;
     FloatDiv (F32.of_int (width_at env (tick w))) (F32.of_int (height_at env (tick w)));
     GlViewport 0 0 (width_at env (tick w)) (height_at env (tick w));
     GlClear GL_COLOR_BUFFER_BIT;
     GlfwGetTime;
     GlUseProgram program;
     GlUniformMatrix4fv mvp_location 1 GL_FALSE
       (mat4x4_mul (projection_at env (tick w)) (model_at env (tick w)));
     GlBindVertexArray vertex_array;
     GlDrawArrays GL_TRIANGLES 0 3;
     GlfwSwapBuffers;
     GlfwPollEvents ]
     ++ flat_map callback_calls (pending_events env (tick w)),
   Done tt {| should_close := should_close w || poll_closes env (tick w);
              tick := S (tick w) |}).
Proof.
  unfold loop_body, projection_at, model_at, ratio_at, width_at, height_at.
  destruct w as [c k]. cbn [tick should_close].
  unfold bind, glfwGetFramebufferSize, fdiv, glViewport, glClear, glfwGetTime,
    glUseProgram, glUniformMatrix4fv, glBindVertexArray, glDrawArrays,
    glfwSwapBuffers, call, get_world, ret, bind.
  cbn [fst snd app tick].
  destruct (framebuffer_size env k) as [width height].
  rewrite glfwPollEvents_run. reflexivity.
Qed.

Lemma body_calls_run w :
  fst (loop_body env (new_program env) (uniform_location env "MVP")
         (new_vertex_array env) w) = body_calls env (tick w).
Proof. unfold body_calls. now rewrite !loop_body_run. Qed.

(** ** The loop *)

Lemma closed_from_S c k n :
  closed_from env c k (S n) = closed_from env (c || poll_closes env k) (S k) n.
Proof. unfold closed_from. cbn [seq existsb]. now rewrite orb_assoc. Qed.

Lemma iterations_S k n :
  iterations env k (S n) =
  (GlfwWindowShouldClose :: body_calls env k) ++ iterations env (S k) n.
Proof. reflexivity. Qed.

Lemma while_step fuel (body : M unit) c k :
  while (S fuel) (closing <- glfwWindowShouldClose ;; ret (negb closing)) body
    {| should_close := c; tick := k |} =
  if c then ([GlfwWindowShouldClose], Done tt {| should_close := c; tick := k |})
  else
    match body {| should_close := c; tick := k |} with
    | (t, Done _ w') =>
        let (t', r) :=
          while fuel (closing <- glfwWindowShouldClose ;; ret (negb closing)) body w'
        in (GlfwWindowShouldClose :: t ++ t', r)
    | (t, Exited s) => (GlfwWindowShouldClose :: t, Exited s)
    | (t, OutOfFuel) => (GlfwWindowShouldClose :: t, OutOfFuel)
    end.
Proof.
  destruct c; [reflexivity|].
  cbn [while]. unfold bind at 1.
  unfold glfwWindowShouldClose at 1, bind at 1 2 3, call, get_world.
  cbn [fst snd app should_close negb ret].
  unfold bind at 1.
  destruct (body _) as [t [a w'| s |]]; [|reflexivity..].
  now destruct (while _ _ _ _).
Qed.

Lemma while_run fuel : forall c k,
  exists n,
    (forall j, (j < n)%nat -> closed_from env c k j = false) /\
    (((n < fuel)%nat /\ closed_from env c k n = true /\
      while fuel (closing <- glfwWindowShouldClose ;; ret (negb closing))
        (loop_body env (new_program env) (uniform_location env "MVP")
           (new_vertex_array env))
        {| should_close := c; tick := k |} =
      (iterations env k n ++ [GlfwWindowShouldClose],
       Done tt {| should_close := true; tick := k + n |}))
     \/
     (n = fuel /\
      while fuel (closing <- glfwWindowShouldClose ;; ret (negb closing))
        (loop_body env (new_program env) (uniform_location env "MVP")
           (new_vertex_array env))
        {| should_close := c; tick := k |} =
      (iterations env k n, OutOfFuel))).
Proof.
  induction fuel as [|fuel IH]; intros c k.
  - exists 0%nat. split; [intros j Hj; lia|]. right. split; reflexivity.
  - destruct c.
    + exists 0%nat. split; [intros j Hj; lia|]. left.
      split; [lia|]. split; [reflexivity|].
      rewrite while_step. now rewrite Nat.add_0_r.
    + destruct (IH (poll_closes env k) (S k)) as (n & Hbefore & Hrun).
      exists (S n). split.
      * intros [|j] Hj; [reflexivity|].
        rewrite closed_from_S. apply Hbefore. lia.
      * rewrite while_step, iterations_S, closed_from_S.
        pose proof (body_calls_run {| should_close := false; tick := k |}) as Hcalls.
        rewrite loop_body_run in *. cbn [tick should_close orb fst] in *.
        rewrite Hcalls.
        destruct Hrun as [(Hlt & Hclosed & ->) | (-> & ->)].
        -- left. split; [lia|]. split; [exact Hclosed|].
           cbn [app]. rewrite <- !app_assoc.
           now rewrite Nat.add_succ_r.
        -- right. split; [reflexivity|]. reflexivity.
Qed.

(** ** The whole run *)

Lemma run_init_failure fuel :
  glfwInit_ok env = false ->
  run env fuel = ([GlfwSetErrorCallback; GlfwInit], Exited EXIT_FAILURE).
Proof. intros H. unfold run, main, glfwInit. rewrite H. reflexivity. Qed.

Lemma run_window_failure fuel :
  glfwInit_ok env = true -> glfwCreateWindow_ok env = false ->
  run env fuel =
  ([ GlfwSetErrorCallback; GlfwInit;
     GlfwWindowHint GLFW_CONTEXT_VERSION_MAJOR 3;
     GlfwWindowHint GLFW_CONTEXT_VERSION_MINOR 3;
     GlfwWindowHint GLFW_OPENGL_PROFILE GLFW_OPENGL_CORE_PROFILE;
     GlfwCreateWindow 640 480 "OpenGL Triangle";
     GlfwTerminate ],
   Exited EXIT_FAILURE).
Proof.
  intros H1 H2. unfold run, main, glfwInit, glfwCreateWindow.
  rewrite H1, H2. reflexivity.
Qed.

Lemma setup_calls_eq :
  glfwInit_ok env = true -> glfwCreateWindow_ok env = true ->
  setup_calls env =
  [ GlfwSetErrorCallback; GlfwInit;
    GlfwWindowHint GLFW_CONTEXT_VERSION_MAJOR 3;
    GlfwWindowHint GLFW_CONTEXT_VERSION_MINOR 3;
    GlfwWindowHint GLFW_OPENGL_PROFILE GLFW_OPENGL_CORE_PROFILE;
    GlfwCreateWindow 640 480 "OpenGL Triangle";
    GlfwSetKeyCallback; GlfwMakeContextCurrent; GladLoadGL; GlfwSwapInterval 1;
    GlGenBuffers 1;
    GlBindBuffer GL_ARRAY_BUFFER (new_buffer env);
    GlBufferData GL_ARRAY_BUFFER sizeof_vertices vertices_floats GL_STATIC_DRAW;
    GlCreateShader GL_VERTEX_SHADER;
    GlShaderSource (new_shader env GL_VERTEX_SHADER) 1 vertex_shader_text;
    GlCompileShader (new_shader env GL_VERTEX_SHADER);
    GlCreateShader GL_FRAGMENT_SHADER;
    GlShaderSource (new_shader env GL_FRAGMENT_SHADER) 1 fragment_shader_text;
    GlCompileShader (new_shader env GL_FRAGMENT_SHADER);
    GlCreateProgram;
    GlAttachShader (new_program env) (new_shader env GL_VERTEX_SHADER);
    GlAttachShader (new_program env) (new_shader env GL_FRAGMENT_SHADER);
    GlLinkProgram (new_program env);
    GlGetUniformLocation (new_program env) "MVP";
    GlGetAttribLocation (new_program env) "vPos";
    GlGetAttribLocation (new_program env) "vCol";
    GlGenVertexArrays 1;
    GlBindVertexArray (new_vertex_array env);
    GlEnableVertexAttribArray (attrib_location env "vPos");
    GlVertexAttribPointer (attrib_location env "vPos") 2 GL_FLOAT GL_FALSE
      sizeof_Vertex (offsetof_Vertex "pos");
    GlEnableVertexAttribArray (attrib_location env "vCol");
    GlVertexAttribPointer (attrib_location env "vCol") 3 GL_FLOAT GL_FALSE
      sizeof_Vertex (offsetof_Vertex "col") ].
Proof.
  intros H1 H2. unfold setup_calls, run, main, glfwInit, glfwCreateWindow.
  rewrite H1, H2. reflexivity.
Qed.

Lemma run_loop fuel :
  glfwInit_ok env = true -> glfwCreateWindow_ok env = true ->
  run env fuel =
  match while fuel (closing <- glfwWindowShouldClose ;; ret (negb closing))
          (loop_body env (new_program env) (uniform_location env "MVP")
             (new_vertex_array env)) initial_world with
  | (t, Done _ _) =>
      (setup_calls env ++ t ++ [GlfwDestroyWindow; GlfwTerminate],
       Exited EXIT_SUCCESS)
  | (t, Exited s) => (setup_calls env ++ t, Exited s)
  | (t, OutOfFuel) => (setup_calls env ++ t, OutOfFuel)
  end.
Proof.
  intros H1 H2. rewrite (setup_calls_eq H1 H2).
  unfold run, main, glfwInit, glfwCreateWindow.
  rewrite H1, H2.
  cbn -[while loop_body].
  rewrite bind_unfold.
  destruct (while _ _ _ _) as [t [a w'| s |]]; reflexivity.
Qed.

(** The shape of every run that gets a window: the setup, then some
    number [n] of iterations, each begun with the close flag clear; then
    either the flag is found set and the program tears down and exits
    with [EXIT_SUCCESS], or the loop bound of the model is reached. *)
Lemma run_shape fuel :
  glfwInit_ok env = true -> glfwCreateWindow_ok env = true ->
  exists n,
    (forall j, (j < n)%nat -> closed_at env j = false) /\
    (((n < fuel)%nat /\ closed_at env n = true /\
      run env fuel =
      (setup_calls env ++ iterations env 0 n ++
         [GlfwWindowShouldClose; GlfwDestroyWindow; GlfwTerminate],
       Exited EXIT_SUCCESS))
     \/
     (n = fuel /\
      run env fuel = (setup_calls env ++ iterations env 0 n, OutOfFuel))).
Proof.
  intros H1 H2. rewrite (run_loop fuel H1 H2).
  destruct (while_run fuel false 0) as (n & Hbefore & Hrun).
  exists n. split; [exact Hbefore|].
  unfold initial_world.
  destruct Hrun as [(Hlt & Hclosed & ->) | (-> & ->)].
  - left. split; [exact Hlt|]. split; [exact Hclosed|].
    now rewrite <- !app_assoc.
  - right. split; reflexivity.
Qed.

Lemma run_exit_success_iff fuel :
  glfwInit_ok env = true -> glfwCreateWindow_ok env = true ->
  (snd (run env fuel) = Exited EXIT_SUCCESS <->
   exists n, (n < fuel)%nat /\ closed_at env n = true).
Proof.
  intros H1 H2.
  destruct (run_shape fuel H1 H2) as (n & Hbefore & [(Hlt & Hclosed & ->) | (-> & ->)]).
  - split; [intros _; now exists n | reflexivity].
  - split; [discriminate|]. intros (n & Hlt & Hclosed).
    rewrite (Hbefore n Hlt) in Hclosed. discriminate.
Qed.

(** The loop stops at the first iteration that finds the flag set. *)
Lemma run_until_closed fuel n :
  glfwInit_ok env = true -> glfwCreateWindow_ok env = true ->
  (n < fuel)%nat ->
  (forall j, (j < n)%nat -> closed_at env j = false) ->
  closed_at env n = true ->
  run env fuel =
  (setup_calls env ++ iterations env 0 n ++
     [GlfwWindowShouldClose; GlfwDestroyWindow; GlfwTerminate],
   Exited EXIT_SUCCESS).
Proof.
  intros H1 H2 Hlt Hbefore Hclosed.
  destruct (run_shape fuel H1 H2) as (n' & Hbefore' & [(Hlt' & Hclosed' & ->) | (-> & _)]).
  - destruct (Nat.lt_trichotomy n n') as [Hc | [-> | Hc]].
    + rewrite (Hbefore' n Hc) in Hclosed. discriminate.
    + reflexivity.
    + rewrite (Hbefore n' Hc) in Hclosed'. discriminate.
  - rewrite (Hbefore' n Hlt) in Hclosed. discriminate.
Qed.

(** ** Projections of the call log *)

Lemma body_calls_eq k :
  body_calls env k =
  [ GlfwGetFramebufferSize;
    FloatDiv (F32.of_int (width_at env k)) (F32.of_int (height_at env k));
    GlViewport 0 0 (width_at env k) (height_at env k);
    GlClear GL_COLOR_BUFFER_BIT;
    GlfwGetTime;
    GlUseProgram (new_program env);
    GlUniformMatrix4fv (uniform_location env "MVP") 1 GL_FALSE
      (mat4x4_mul (projection_at env k) (model_at env k));
    GlBindVertexArray (new_vertex_array env);
    GlDrawArrays GL_TRIANGLES 0 3;
    GlfwSwapBuffers;
    GlfwPollEvents ]
    ++ flat_map callback_calls (pending_events env k).
Proof. unfold body_calls. now rewrite loop_body_run. Qed.

Lemma filter_callbacks (f : Call -> bool) evs :
  f (GlfwSetWindowShouldClose true) = false ->
  filter f (flat_map callback_calls evs) = [].
Proof.
  intros Hf. induction evs as [|e evs IH]; [reflexivity|].
  cbn [flat_map]. rewrite filter_app, IH, app_nil_r.
  unfold callback_calls. destruct (escape_pressed e); [|reflexivity].
  cbn. now rewrite Hf.
Qed.

Lemma existsb_callbacks (f : Call -> bool) evs :
  f (GlfwSetWindowShouldClose true) = false ->
  existsb f (flat_map callback_calls evs) = false.
Proof.
  intros Hf. induction evs as [|e evs IH]; [reflexivity|].
  cbn [flat_map]. rewrite existsb_app, IH, orb_false_r.
  unfold callback_calls. destruct (escape_pressed e); [|reflexivity].
  cbn. now rewrite Hf.
Qed.

Lemma filter_iterations (f : Call -> bool) (g : nat -> list Call) n : forall k,
  (forall j, filter f (iteration_calls env j) = g j) ->
  filter f (iterations env k n) = flat_map g (seq k n).
Proof.
  intros k Hg. unfold iterations.
  induction (seq k n) as [|j l IH]; [reflexivity|].
  cbn [flat_map]. now rewrite filter_app, Hg, IH.
Qed.

Lemma existsb_iterations (f : Call -> bool) n : forall k,
  (forall j, (k <= j < k + n)%nat -> existsb f (iteration_calls env j) = false) ->
  existsb f (iterations env k n) = false.
Proof.
  induction n as [|n IH]; intros k Hf; [reflexivity|].
  rewrite iterations_S. fold (iteration_calls env k).
  rewrite existsb_app, Hf by lia. apply IH. intros j Hj. apply Hf. lia.
Qed.

Lemma flat_map_singleton {A B} (g : A -> B) l :
  flat_map (fun a => [g a]) l = map g l.
Proof. induction l as [|a l IH]; [reflexivity|]. cbn. now rewrite IH. Qed.

Lemma flat_map_nil {A B} (l : list A) :
  flat_map (fun _ => @nil B) l = [].
Proof. induction l as [|a l IH]; [reflexivity|]. exact IH. Qed.

Lemma closed_at_0 : closed_at env 0 = false.
Proof. reflexivity. Qed.

(** Case analysis on how a run goes. *)
Tactic Notation "run_cases" constr(fuel) "as" ident(n) ident(Hbefore)
  ident(Hlt) ident(Hclosed) :=
  let Hinit := fresh "Hinit" in
  let Hwin := fresh "Hwin" in
  let Hrun := fresh "Hrun" in
  destruct (glfwInit_ok env) eqn:Hinit;
  [ destruct (glfwCreateWindow_ok env) eqn:Hwin;
    [ destruct (run_shape fuel Hinit Hwin)
        as (n & Hbefore & [(Hlt & Hclosed & Hrun) | (Hlt & Hrun)]);
      rewrite Hrun, (setup_calls_eq Hinit Hwin)
    | rewrite (run_window_failure fuel Hinit Hwin) ]
  | rewrite (run_init_failure fuel Hinit) ].

(** Once the entry points are resolved, every call of a log is made. *)
Lemma calls_made_loaded (l : list Call) : calls_made true true l = l.
Proof.
  induction l as [|c l IH]; [reflexivity|].
  cbn [calls_made negb]. rewrite andb_false_r. f_equal.
  rewrite <- IH at 2. now destruct c.
Qed.

Lemma crashes_loaded (l : list Call) : crashes true true l = false.
Proof.
  induction l as [|c l IH]; [reflexivity|].
  cbn [crashes negb]. rewrite andb_false_r, orb_false_l.
  rewrite <- IH. now destruct c.
Qed.

(** A log whose first graphics call comes after a successful
    [gladLoadGL] is made in full. *)
Lemma made_in_full loaded (pre rest : list Call) :
  existsb is_graphics_call pre = false ->
  calls_made true loaded (pre ++ GladLoadGL :: rest) = pre ++ GladLoadGL :: rest /\
  crashes true loaded (pre ++ GladLoadGL :: rest) = false.
Proof.
  revert loaded. induction pre as [|c pre IH]; intros loaded Hpre.
  - cbn [app calls_made crashes is_graphics_call andb orb].
    now rewrite calls_made_loaded, crashes_loaded.
  - cbn [existsb] in Hpre. apply orb_false_iff in Hpre as [Hc Hpre].
    cbn [app calls_made crashes]. rewrite Hc. cbn [andb orb].
    destruct (IH (match c with GladLoadGL => true | _ => loaded end) Hpre)
      as [-> ->].
    split; reflexivity.
Qed.

(** The setup makes no graphics call before it calls [gladLoadGL]. *)
Lemma setup_calls_load :
  glfwInit_ok env = true -> glfwCreateWindow_ok env = true ->
  exists pre post,
    setup_calls env = pre ++ GladLoadGL :: post /\
    existsb is_graphics_call pre = false.
Proof.
  intros H1 H2. rewrite (setup_calls_eq H1 H2).
  eexists [_; _; _; _; _; _; _; _], _. split; reflexivity.
Qed.

(** ** Claims *)

(** C2. For every invocation of the key callback: if the key is Escape
    and the action is a press, the close flag is set to true (through one
    call of [glfwSetWindowShouldClose] with [GLFW_TRUE]); for every other
    key/action combination nothing is called and the state, the close
    flag included, is left as it was. *)
Theorem key_callback_escape_press key scancode action mods w :
  (key = GLFW_KEY_ESCAPE /\ action = GLFW_PRESS ->
   key_callback key scancode action mods w =
   ([GlfwSetWindowShouldClose GLFW_TRUE],
    Done tt {| should_close := true; tick := tick w |})) /\
  (~ (key = GLFW_KEY_ESCAPE /\ action = GLFW_PRESS) ->
   key_callback key scancode action mods w = ([], Done tt w)).
Proof.
  unfold key_callback. split.
  - intros [-> ->]. reflexivity.
  - intros Hne.
    destruct (Z.eqb_spec key GLFW_KEY_ESCAPE) as [Hk|Hk];
      destruct (Z.eqb_spec action GLFW_PRESS) as [Ha|Ha];
      try reflexivity.
    exfalso. apply Hne. now split.
Qed.

(** C3. The process exits with status 0 exactly when shutdown is clean
    (the Running loop ends via the close flag), and with the nonzero
    status [EXIT_FAILURE] when the windowing layer fails to initialise or
    the window cannot be created. A failure of function loading is where
    the code departs from this: the result of [gladLoadGL] is dropped,
    and the program goes on to [glGenBuffers], a call through a pointer
    that was never loaded; the process dies there and reaches no [exit]
    at all. *)
Theorem exit_status_or_crash fuel :
  (glfwInit_ok env = false ->
   snd (process env fuel) = Finished (Exited EXIT_FAILURE)) /\
  (glfwInit_ok env = true -> glfwCreateWindow_ok env = false ->
   snd (process env fuel) = Finished (Exited EXIT_FAILURE)) /\
  (glfwInit_ok env = true -> glfwCreateWindow_ok env = true ->
   gladLoadGL_ok env = false ->
   process env fuel =
   ([ GlfwSetErrorCallback; GlfwInit;
      GlfwWindowHint GLFW_CONTEXT_VERSION_MAJOR 3;
      GlfwWindowHint GLFW_CONTEXT_VERSION_MINOR 3;
      GlfwWindowHint GLFW_OPENGL_PROFILE GLFW_OPENGL_CORE_PROFILE;
      GlfwCreateWindow 640 480 "OpenGL Triangle";
      GlfwSetKeyCallback; GlfwMakeContextCurrent; GladLoadGL;
      GlfwSwapInterval 1; GlGenBuffers 1 ],
    Crashed)) /\
  (glfwInit_ok env = true -> glfwCreateWindow_ok env = true ->
   gladLoadGL_ok env = true ->
   process env fuel = (fst (run env fuel), Finished (snd (run env fuel))) /\
   (snd (process env fuel) = Finished (Exited EXIT_SUCCESS) <->
    exists n, (n < fuel)%nat /\ closed_at env n = true)) /\
  EXIT_SUCCESS = 0 /\ EXIT_FAILURE <> 0.
Proof.
  split; [|split; [|split; [|split]]].
  - intros Hinit. unfold process. rewrite (run_init_failure fuel Hinit).
    cbn. now destruct (gladLoadGL_ok env).
  - intros Hinit Hwin. unfold process. rewrite (run_window_failure fuel Hinit Hwin).
    cbn. now destruct (gladLoadGL_ok env).
  - intros Hinit Hwin Hload. unfold process. rewrite Hload.
    destruct (run_shape fuel Hinit Hwin)
      as (n & _ & [(_ & _ & ->) | (_ & ->)]);
      rewrite (setup_calls_eq Hinit Hwin); reflexivity.
  - intros Hinit Hwin Hload.
    assert (Hprocess :
      process env fuel = (fst (run env fuel), Finished (snd (run env fuel)))).
    { unfold process. rewrite Hload.
      destruct (setup_calls_load Hinit Hwin) as (pre & post & Hsetup & Hpre).
      destruct (run_shape fuel Hinit Hwin)
        as (n & _ & [(_ & _ & ->) | (_ & ->)]);
        rewrite Hsetup, <- app_assoc, <- app_comm_cons;
        rewrite (proj1 (made_in_full false pre _ Hpre)),
          (proj2 (made_in_full false pre _ Hpre));
        reflexivity. }
    split; [exact Hprocess|]. rewrite Hprocess. cbn [snd].
    rewrite <- (run_exit_success_iff fuel Hinit Hwin).
    split; [intros H; now injection H | intros ->; reflexivity].
  - split; [reflexivity | discriminate].
Qed.

(** C1, as amended. In every iteration of the Running loop whose queried
    framebuffer height is nonzero, the aspect-ratio computation
    [width / (float)height] does not divide by zero. The loop has no
    clamp and no skip for a height of 0: an iteration that finds height 0
    divides by zero (in float arithmetic, which does not trap: the ratio
    is an infinity or a NaN), builds its projection from that ratio,
    uploads the matrix and draws the frame. *)
Theorem division_by_zero_exactly_at_height_0 fuel :
  (forall k,
     existsb divides_by_zero (body_calls env k) = (height_at env k =? 0)) /\
  ((forall k, (k < fuel)%nat -> height_at env k <> 0) ->
   existsb divides_by_zero (fst (run env fuel)) = false) /\
  (forall k, height_at env k = 0 ->
     In (FloatDiv (F32.of_int (width_at env k)) F32.zero) (body_calls env k) /\
     F32.is_finite (ratio_at env k) = false /\
     In (GlUniformMatrix4fv (uniform_location env "MVP") 1 GL_FALSE
           (mat4x4_mul
              (mat4x4_ortho (F32.neg (ratio_at env k)) (ratio_at env k)
                 (F32.neg F32.one) F32.one F32.one (F32.neg F32.one))
              (model_at env k)))
        (body_calls env k) /\
     In (GlDrawArrays GL_TRIANGLES 0 3) (body_calls env k)).
Proof.
  assert (Hbody : forall k,
    existsb divides_by_zero (body_calls env k) = (height_at env k =? 0)).
  { intros k. rewrite body_calls_eq, existsb_app, existsb_callbacks by reflexivity.
    cbn [existsb divides_by_zero]. rewrite of_int_is_zero.
    now rewrite !orb_false_r. }
  split; [exact Hbody|]. split.
  - intros Hheights. run_cases fuel as n Hbefore Hlt Hclosed; cbn [fst];
      [| |reflexivity..].
    + rewrite !existsb_app, existsb_iterations; [reflexivity|].
      intros j Hj. unfold iteration_calls. cbn [existsb divides_by_zero].
      rewrite Hbody. apply Z.eqb_neq, Hheights. lia.
    + rewrite !existsb_app, existsb_iterations; [reflexivity|].
      intros j Hj. unfold iteration_calls. cbn [existsb divides_by_zero].
      rewrite Hbody. apply Z.eqb_neq, Hheights. lia.
  - intros k Hk. rewrite body_calls_eq. unfold projection_at.
    split; [|split; [|split]].
    + rewrite Hk. apply in_or_app. left. cbn. auto.
    + unfold ratio_at. rewrite Hk. now apply div_by_zero_not_finite.
    + apply in_or_app. left. cbn. auto 10.
    + apply in_or_app. left. cbn. auto 10.
Qed.

(** C4, as amended. The outcome of shader compilation and of program
    linking is never queried: whatever it is, the run makes the same
    calls and ends the same way. In particular, once the window exists
    the program goes on into the render loop and draws, and it exits
    with status 0 when the loop ends. *)
Theorem shader_status_not_checked fuel :
  (forall vertex fragment link,
     run (with_shader_status vertex fragment link env) fuel = run env fuel) /\
  (glfwInit_ok env = true -> glfwCreateWindow_ok env = true -> (0 < fuel)%nat ->
   forall vertex fragment link,
     In (GlDrawArrays GL_TRIANGLES 0 3)
        (fst (run (with_shader_status vertex fragment link env) fuel)) /\
     ((exists n, (n < fuel)%nat /\ closed_at env n = true) ->
      snd (run (with_shader_status vertex fragment link env) fuel)
      = Exited EXIT_SUCCESS)).
Proof.
  assert (Hsame : forall vertex fragment link,
    run (with_shader_status vertex fragment link env) fuel = run env fuel)
    by reflexivity.
  split; [exact Hsame|].
  intros Hinit Hwin Hfuel vertex fragment link. rewrite Hsame.
  split; [|apply (run_exit_success_iff fuel Hinit Hwin)].
  destruct (run_shape fuel Hinit Hwin)
    as (n & Hbefore & [(Hlt & Hclosed & Hrun) | (Hn & Hrun)]);
    rewrite Hrun; cbn [fst].
  all: destruct n as [|n];
    [first [rewrite closed_at_0 in Hclosed; discriminate | lia]|].
  all: apply in_or_app; right; rewrite iterations_S, body_calls_eq;
    cbn; auto 20.
Qed.

(** C5. In every iteration of the Running loop, the matrix uploaded to the
    MVP uniform is projection x model, both factors computed in that
    iteration from that iteration's framebuffer size and time: the
    uploads of a run are, in order, one per drawn frame [k], the product
    of the orthographic projection built from the size queried in
    iteration [k] and of the rotation built from the time queried in
    iteration [k]. *)
Theorem mvp_recomputed_every_frame fuel :
  exists n,
    (n <= fuel)%nat /\
    List.length (filter is_draw (fst (run env fuel))) = n /\
    filter is_upload (fst (run env fuel)) =
    map (fun k =>
           let '(width, height) := framebuffer_size env k in
           let ratio := F32.div (F32.of_int width) (F32.of_int height) in
           let m := mat4x4_rotate_Z mat4x4_identity (F32.of_double (clock env k)) in
           let p := mat4x4_ortho (F32.neg ratio) ratio
                      (F32.neg F32.one) F32.one F32.one (F32.neg F32.one) in
           GlUniformMatrix4fv (uniform_location env "MVP") 1 GL_FALSE
             (mat4x4_mul p m))
        (seq 0 n).
Proof.
  assert (Hup : forall j, filter is_upload (iteration_calls env j) =
    [ (fun k =>
         let '(width, height) := framebuffer_size env k in
         let ratio := F32.div (F32.of_int width) (F32.of_int height) in
         let m := mat4x4_rotate_Z mat4x4_identity (F32.of_double (clock env k)) in
         let p := mat4x4_ortho (F32.neg ratio) ratio
                    (F32.neg F32.one) F32.one F32.one (F32.neg F32.one) in
         GlUniformMatrix4fv (uniform_location env "MVP") 1 GL_FALSE
           (mat4x4_mul p m)) j ]).
  { intros j. unfold iteration_calls. rewrite body_calls_eq.
    cbn [filter is_upload app]. rewrite filter_callbacks by reflexivity.
    unfold projection_at, model_at, ratio_at, width_at, height_at.
    now destruct (framebuffer_size env j). }
  assert (Hdraw : forall j, filter is_draw (iteration_calls env j) =
    [GlDrawArrays GL_TRIANGLES 0 3]).
  { intros j. unfold iteration_calls. rewrite body_calls_eq.
    cbn [filter is_draw app]. now rewrite filter_callbacks by reflexivity. }
  run_cases fuel as n Hbefore Hlt Hclosed; cbn [fst].
  1,2: exists n.
  3,4: exists 0%nat.
  all: (split; [lia|]); try (split; reflexivity);
    rewrite !filter_app, (filter_iterations _ _ n 0 Hup),
      (filter_iterations _ _ n 0 Hdraw), !flat_map_singleton;
    cbn [filter is_draw is_upload app]; rewrite ?app_nil_r;
    now rewrite length_map, length_seq.
Qed.

(** C6. For every framebuffer size with height > 0, the aspect ratio
    computed in that iteration is the float quotient of the width and the
    height, each converted to float (the divisor is not zero), and the
    projection uploaded in that iteration is the orthographic one with
    horizontal extent [-ratio, ratio], vertical extent [-1, 1], near
    plane 1 and far plane -1. *)
Theorem aspect_ratio_and_projection k width height :
  framebuffer_size env k = (width, height) ->
  0 < height ->
  let ratio := F32.div (F32.of_int width) (F32.of_int height) in
  F32.is_zero (F32.of_int height) = false /\
  In (FloatDiv (F32.of_int width) (F32.of_int height)) (body_calls env k) /\
  ratio_at env k = ratio /\
  In (GlUniformMatrix4fv (uniform_location env "MVP") 1 GL_FALSE
        (mat4x4_mul
           (mat4x4_ortho (F32.neg ratio) ratio
              (F32.neg F32.one) F32.one F32.one (F32.neg F32.one))
           (mat4x4_rotate_Z mat4x4_identity (F32.of_double (clock env k)))))
     (body_calls env k).
Proof.
  intros Hsize Hheight ratio. subst ratio.
  rewrite body_calls_eq.
  unfold projection_at, model_at, ratio_at, width_at, height_at.
  rewrite Hsize. cbn [fst snd].
  split; [|split; [|split]].
  - rewrite of_int_is_zero. apply Z.eqb_neq. lia.
  - apply in_or_app. left. cbn. auto.
  - reflexivity.
  - apply in_or_app. left. cbn. auto 10.
Qed.

(** C7, as amended. The model-matrix computation is periodic in the
    rotation angle with period 2 pi. In elapsed time it is so only up to
    the rounding of the clock to [float]: for clock readings [t] and [t']
    below [2^n] seconds (and 0 or at least [2^-126]), with [t'] within
    [slack] of [t + 2 pi], the model matrices computed at [t] and at [t']
    agree entry by entry up to [slack + 2^(n-23)]. The bound grows with
    the uptime: the computation is not periodic in time for every [t]. *)
Theorem model_periodic_up_to_float_rounding n slack t t' :
  n <= 100 -> clock_below n t -> clock_below n t' ->
  (Rabs (F2R t' - F2R t - 2 * PI) <= slack)%R ->
  within (slack + powerRZ 2 (n - 23)) (model_matrix t) (model_matrix t') /\
  (forall a : R, rotation_Z (a + 2 * PI) = rotation_Z a).
Proof.
  intros Hn Ht Ht' Hslack. split; [|exact rotation_Z_period].
  unfold model_matrix. apply rotation_Z_near_period.
  pose proof (of_double_error n t Hn Ht) as E.
  pose proof (of_double_error n t' Hn Ht') as E'.
  pose proof (powerRZ_2_double (n - 23)) as H2.
  replace (n - 23 - 1) with (n - 24) in H2 by lia.
  apply Rabs_le_inv in E. apply Rabs_le_inv in E'. apply Rabs_le_inv in Hslack.
  apply Rabs_le. lra.
Qed.

(** C8. The vertex attribute configuration agrees with the layout of the
    [Vertex] struct: the position attribute (2 floats) is bound with
    stride [sizeof(Vertex)] at the offset of [pos], the colour attribute
    (3 floats) with the same stride at the offset of [col]; fetching
    through these bindings from the uploaded buffer gives back the [pos]
    and the [col] of each vertex; and the two bindings made during setup
    are the only ones of the whole run: no iteration of the loop changes
    them, and the vertex array each iteration binds before drawing is the
    one that was bound when they were made. *)
Theorem attributes_agree_with_Vertex fuel :
  glfwInit_ok env = true -> glfwCreateWindow_ok env = true ->
  filter is_attrib_pointer (fst (run env fuel)) =
  [ GlVertexAttribPointer (attrib_location env "vPos") 2 GL_FLOAT GL_FALSE
      sizeof_Vertex (offsetof_Vertex "pos");
    GlVertexAttribPointer (attrib_location env "vCol") 3 GL_FLOAT GL_FALSE
      sizeof_Vertex (offsetof_Vertex "col") ] /\
  filter is_attrib_pointer (setup_calls env) =
  filter is_attrib_pointer (fst (run env fuel)) /\
  (forall k, filter is_attrib_pointer (iteration_calls env k) = []) /\
  (forall k, filter is_bind_vertex_array (iteration_calls env k) =
             [GlBindVertexArray (new_vertex_array env)]) /\
  filter is_bind_vertex_array (setup_calls env) =
  [GlBindVertexArray (new_vertex_array env)] /\
  In (GlBufferData GL_ARRAY_BUFFER sizeof_vertices vertices_floats GL_STATIC_DRAW)
     (setup_calls env) /\
  sizeof_vertices = sizeof Tfloat * Z.of_nat (List.length vertices_floats) /\
  (forall i v, nth_error vertices i = Some v ->
     fetch_attrib vertices_floats 2 sizeof_Vertex (offsetof_Vertex "pos") i
     = pos_floats v /\
     fetch_attrib vertices_floats 3 sizeof_Vertex (offsetof_Vertex "col") i
     = col_floats v).
Proof.
  intros Hinit Hwin.
  assert (Hiter : forall k, filter is_attrib_pointer (iteration_calls env k) = []).
  { intros k. unfold iteration_calls. rewrite body_calls_eq.
    cbn [filter is_attrib_pointer app]. now rewrite filter_callbacks. }
  assert (Hrun : filter is_attrib_pointer (fst (run env fuel)) =
                 filter is_attrib_pointer (setup_calls env)).
  { destruct (run_shape fuel Hinit Hwin)
      as (n & _ & [(_ & _ & ->) | (_ & ->)]); cbn [fst];
      rewrite !filter_app, (filter_iterations _ _ n 0 Hiter), flat_map_nil;
      cbn [filter is_attrib_pointer app]; now rewrite ?app_nil_r. }
  rewrite Hrun, (setup_calls_eq Hinit Hwin).
  split; [reflexivity|]. split; [reflexivity|]. split; [exact Hiter|].
  split.
  { intros k. unfold iteration_calls. rewrite body_calls_eq.
    cbn [filter is_bind_vertex_array app]. now rewrite filter_callbacks. }
  split; [reflexivity|].
  split; [do 12 right; left; reflexivity|]. split; [reflexivity|].
  intros [|[|[|i]]] v Hv; cbn in Hv; try (destruct i; discriminate);
    injection Hv as <-; split; reflexivity.
Qed.

(** C9, as amended. Each iteration of the Running loop performs its steps
    in one fixed order: the close flag is read and branched on at the top
    of the iteration; the body then starts with the framebuffer-size
    query, presents (swaps) the framebuffer as its second-to-last step
    and polls events as its last step, the key callback running inside
    that poll; the next thing to happen is the read of the close flag at
    the top of the next iteration. *)
Theorem iteration_order fuel :
  glfwInit_ok env = true -> glfwCreateWindow_ok env = true ->
  exists n tail,
    fst (run env fuel) =
    setup_calls env ++
    flat_map (fun k =>
      [ GlfwWindowShouldClose;
        GlfwGetFramebufferSize;
        FloatDiv (F32.of_int (width_at env k)) (F32.of_int (height_at env k));
        GlViewport 0 0 (width_at env k) (height_at env k);
        GlClear GL_COLOR_BUFFER_BIT;
        GlfwGetTime;
        GlUseProgram (new_program env);
        GlUniformMatrix4fv (uniform_location env "MVP") 1 GL_FALSE
          (mat4x4_mul (projection_at env k) (model_at env k));
        GlBindVertexArray (new_vertex_array env);
        GlDrawArrays GL_TRIANGLES 0 3;
        GlfwSwapBuffers;
        GlfwPollEvents ]
        ++ flat_map callback_calls (pending_events env k)) (seq 0 n)
    ++ tail /\
    (tail = [] \/
     tail = [GlfwWindowShouldClose; GlfwDestroyWindow; GlfwTerminate]).
Proof.
  intros Hinit Hwin.
  assert (Hiter : forall n k,
    iterations env k n =
    flat_map (fun k =>
      [ GlfwWindowShouldClose;
        GlfwGetFramebufferSize;
        FloatDiv (F32.of_int (width_at env k)) (F32.of_int (height_at env k));
        GlViewport 0 0 (width_at env k) (height_at env k);
        GlClear GL_COLOR_BUFFER_BIT;
        GlfwGetTime;
        GlUseProgram (new_program env);
        GlUniformMatrix4fv (uniform_location env "MVP") 1 GL_FALSE
          (mat4x4_mul (projection_at env k) (model_at env k));
        GlBindVertexArray (new_vertex_array env);
        GlDrawArrays GL_TRIANGLES 0 3;
        GlfwSwapBuffers;
        GlfwPollEvents ]
        ++ flat_map callback_calls (pending_events env k)) (seq k n)).
  { unfold iterations. intros n k. apply flat_map_ext. intros j.
    unfold iteration_calls. now rewrite body_calls_eq. }
  destruct (run_shape fuel Hinit Hwin)
    as (n & _ & [(_ & _ & ->) | (_ & ->)]); cbn [fst]; rewrite Hiter.
  - exists n, [GlfwWindowShouldClose; GlfwDestroyWindow; GlfwTerminate]. auto.
  - exists n, []. rewrite app_nil_r. auto.
Qed.

(** C10. The close flag is monotone: the key callback is the only code of
    the program that writes it (the [glfwSetWindowShouldClose] calls of
    an iteration are those the callback makes for the key events of its
    poll), and it only ever writes true (handling an event, and so a
    whole poll, leaves a set flag set; no call of a run resets it); once
    the loop condition finds the flag set the loop runs no further
    iteration, and the program goes on to destroy the window, terminate
    the windowing layer and exit with [EXIT_SUCCESS]. *)
Theorem close_flag_monotone fuel :
  (forall e w, should_close w = true -> snd (dispatch e w) = Done tt w) /\
  (forall w, should_close w = true ->
     snd (glfwPollEvents env w) = Done tt (next_tick w)) /\
  existsb resets_close (fst (run env fuel)) = false /\
  (forall k,
     filter is_set_close (iteration_calls env k) =
     flat_map (fun e =>
                 match e with
                 | KeyEvent key scancode action mods =>
                     fst (key_callback key scancode action mods initial_world)
                 | CloseRequest => []
                 end) (pending_events env k)) /\
  (forall (body : M unit) k,
     while (S fuel) (closing <- glfwWindowShouldClose ;; ret (negb closing)) body
       {| should_close := true; tick := k |} =
     ([GlfwWindowShouldClose],
      Done tt {| should_close := true; tick := k |})) /\
  (glfwInit_ok env = true -> glfwCreateWindow_ok env = true ->
   forall n, (n < fuel)%nat ->
     (forall j, (j < n)%nat -> closed_at env j = false) ->
     closed_at env n = true ->
     run env fuel =
     (setup_calls env ++ iterations env 0 n ++
        [GlfwWindowShouldClose; GlfwDestroyWindow; GlfwTerminate],
      Exited EXIT_SUCCESS)).
Proof.
  split; [|split; [|split; [|split; [|split]]]].
  - intros e [c k] Hc. cbn in Hc. subst c. now rewrite dispatch_run.
  - intros [c k] Hc. cbn in Hc. subst c. now rewrite glfwPollEvents_run.
  - assert (Hiter : forall j, existsb resets_close (iteration_calls env j) = false).
    { intros j. unfold iteration_calls. rewrite body_calls_eq.
      cbn [existsb resets_close app]. now rewrite existsb_callbacks. }
    run_cases fuel as n Hbefore Hlt Hclosed; cbn [fst]; [| |reflexivity..];
      rewrite !existsb_app, existsb_iterations by (intros; apply Hiter);
      reflexivity.
  - intros k. unfold iteration_calls. rewrite body_calls_eq.
    cbn [filter is_set_close app].
    induction (pending_events env k) as [|e evs IH]; [reflexivity|].
    cbn [flat_map]. rewrite filter_app, IH. f_equal.
    destruct e as [key scancode action mods|]; [|reflexivity].
    rewrite key_callback_run. cbn [fst].
    unfold callback_calls. now destruct (escape_pressed _).
  - intros body k. now rewrite while_step.
  - intros Hinit Hwin n Hlt Hbefore Hclosed. now apply run_until_closed.
Qed.

(** ** Further properties of [main] and [key_callback] *)

Lemma closed_at_true_iff n :
  closed_at env n = true <-> exists j, (j < n)%nat /\ poll_closes env j = true.
Proof.
  unfold closed_at, closed_from. cbn [orb]. rewrite existsb_exists.
  split.
  - intros (j & Hin & Hj). apply in_seq in Hin. exists j. split; [lia | exact Hj].
  - intros (j & Hlt & Hj). exists j. split; [apply in_seq; lia | exact Hj].
Qed.

Lemma closed_at_false_before n :
  (forall j, (j < n)%nat -> poll_closes env j = false) ->
  forall j, (j <= n)%nat -> closed_at env j = false.
Proof.
  intros Hno j Hj. destruct (closed_at env j) eqn:E; [|reflexivity].
  apply closed_at_true_iff in E. destruct E as (i & Hi & Hc).
  rewrite Hno in Hc by lia. discriminate.
Qed.

Lemma filter_is_draw_iteration j :
  filter is_draw (iteration_calls env j) = [GlDrawArrays GL_TRIANGLES 0 3].
Proof.
  unfold iteration_calls. rewrite body_calls_eq.
  cbn [filter is_draw app]. now rewrite filter_callbacks by reflexivity.
Qed.

Lemma draws_of_iterations k n :
  List.length (filter is_draw (iterations env k n)) = n.
Proof.
  rewrite (filter_iterations _ _ n k filter_is_draw_iteration),
    flat_map_singleton, length_map. apply length_seq.
Qed.

Lemma graphics_in_context_app l : forall l',
  existsb ends_context l = false ->
  graphics_in_context true true (l ++ l') = graphics_in_context true true l'.
Proof.
  induction l as [|c l IH]; intros l' Hl; [reflexivity|].
  cbn [existsb] in Hl. apply orb_false_iff in Hl. destruct Hl as [Hc Hl].
  destruct c; cbn in Hc |- *; try discriminate; now apply IH.
Qed.

Lemma ends_context_iterations k n :
  existsb ends_context (iterations env k n) = false.
Proof.
  apply existsb_iterations. intros j _. unfold iteration_calls.
  rewrite body_calls_eq. cbn [existsb ends_context app].
  now rewrite existsb_callbacks.
Qed.

(** X1. In every run, whatever the outside world answers, the program
    keeps to the order the libraries ask for: the loader is called with a
    current context, and every graphics call is made after
    [glfwMakeContextCurrent] and [gladLoadGL] and before the window is
    destroyed. *)
Theorem graphics_calls_in_context fuel :
  graphics_in_context false false (fst (run env fuel)) = true.
Proof.
  run_cases fuel as n Hbefore Hlt Hclosed; cbn [fst]; [| |reflexivity..].
  - cbn [app graphics_in_context is_graphics_call andb].
    now rewrite graphics_in_context_app by apply ends_context_iterations.
  - cbn [app graphics_in_context is_graphics_call andb].
    rewrite <- (app_nil_r (iterations env 0 n)).
    now rewrite graphics_in_context_app by apply ends_context_iterations.
Qed.

(** X2. Whenever the process exits, what it acquired has been released
    exactly once: [glfwTerminate] is called once if (and only if)
    [glfwInit] succeeded, and is then the last call before [exit];
    [glfwDestroyWindow] is called once if (and only if) the window was
    created, and then just before [glfwTerminate]. *)
Theorem resources_released_on_exit fuel status :
  snd (run env fuel) = Exited status ->
  filter is_terminate (fst (run env fuel)) =
    (if glfwInit_ok env then [GlfwTerminate] else []) /\
  filter is_destroy_window (fst (run env fuel)) =
    (if glfwInit_ok env && glfwCreateWindow_ok env then [GlfwDestroyWindow] else []) /\
  (glfwInit_ok env = true ->
   exists before,
     fst (run env fuel) =
     before ++ (if glfwCreateWindow_ok env then [GlfwDestroyWindow] else [])
            ++ [GlfwTerminate] /\
     existsb ends_context before = false).
Proof.
  assert (Hterm : forall j, filter is_terminate (iteration_calls env j) = []).
  { intros j. unfold iteration_calls. rewrite body_calls_eq.
    cbn [filter is_terminate app]. now rewrite filter_callbacks. }
  assert (Hdestroy : forall j, filter is_destroy_window (iteration_calls env j) = []).
  { intros j. unfold iteration_calls. rewrite body_calls_eq.
    cbn [filter is_destroy_window app]. now rewrite filter_callbacks. }
  intros Hexit. revert Hexit.
  run_cases fuel as n Hbefore Hlt Hclosed; cbn [fst snd andb]; intros Hexit;
    try discriminate Hexit.
  - rewrite !filter_app, (filter_iterations _ _ n 0 Hterm),
      (filter_iterations _ _ n 0 Hdestroy), !flat_map_nil.
    split; [reflexivity|]. split; [reflexivity|]. intros _.
    eexists. split.
    + rewrite app_assoc.
      change [GlfwWindowShouldClose; GlfwDestroyWindow; GlfwTerminate]
        with ([@GlfwWindowShouldClose LM] ++ [GlfwDestroyWindow] ++ [GlfwTerminate]).
      rewrite (app_assoc _ [GlfwWindowShouldClose]). reflexivity.
    + rewrite !existsb_app, ends_context_iterations. reflexivity.
  - split; [reflexivity|]. split; [reflexivity|]. intros _.
    eexists. split; [|].
    + cbn [app].
      change [GlfwSetErrorCallback; GlfwInit;
              GlfwWindowHint GLFW_CONTEXT_VERSION_MAJOR 3;
              GlfwWindowHint GLFW_CONTEXT_VERSION_MINOR 3;
              GlfwWindowHint GLFW_OPENGL_PROFILE GLFW_OPENGL_CORE_PROFILE;
              GlfwCreateWindow 640 480 "OpenGL Triangle"; GlfwTerminate]
        with ([GlfwSetErrorCallback; GlfwInit;
               GlfwWindowHint GLFW_CONTEXT_VERSION_MAJOR 3;
               GlfwWindowHint GLFW_CONTEXT_VERSION_MINOR 3;
               GlfwWindowHint GLFW_OPENGL_PROFILE GLFW_OPENGL_CORE_PROFILE;
               GlfwCreateWindow 640 480 "OpenGL Triangle"] ++ [@GlfwTerminate LM]).
      reflexivity.
    + reflexivity.
  - split; [reflexivity|]. split; [reflexivity|]. discriminate.
Qed.

(** X3. The frame during whose poll an event asks to close (an Escape
    press, or the user closing the window) is the last one drawn: if the
    first such event arrives in poll [k], the run draws exactly [k+1]
    frames, reads the flag once more, destroys the window, terminates
    and exits with [EXIT_SUCCESS]. In particular one frame is drawn
    even when the window is closed at once. *)
Theorem closing_event_ends_after_its_frame fuel k e :
  glfwInit_ok env = true -> glfwCreateWindow_ok env = true ->
  (forall j, (j < k)%nat -> poll_closes env j = false) ->
  In e (pending_events env k) -> requests_close e = true ->
  (S k < fuel)%nat ->
  run env fuel =
  (setup_calls env ++ iterations env 0 (S k) ++
     [GlfwWindowShouldClose; GlfwDestroyWindow; GlfwTerminate],
   Exited EXIT_SUCCESS) /\
  List.length (filter is_draw (fst (run env fuel))) = S k.
Proof.
  intros Hinit Hwin Hno Hin He Hfuel.
  assert (Hk : poll_closes env k = true).
  { unfold poll_closes. apply existsb_exists. now exists e. }
  assert (Hrun : run env fuel =
    (setup_calls env ++ iterations env 0 (S k) ++
       [GlfwWindowShouldClose; GlfwDestroyWindow; GlfwTerminate],
     Exited EXIT_SUCCESS)).
  { apply run_until_closed; try assumption.
    - intros j Hj. apply (closed_at_false_before k Hno). lia.
    - apply closed_at_true_iff. exists k. split; [lia | exact Hk]. }
  split; [exact Hrun|]. rewrite Hrun. cbn [fst].
  rewrite !filter_app, !length_app, draws_of_iterations,
    (setup_calls_eq Hinit Hwin).
  cbn [filter is_draw Datatypes.length Nat.add]. lia.
Qed.

(** X4. The program never ends by itself: as long as no poll delivers an
    Escape press or a close request, the loop goes on, drawing one frame
    per iteration; no exit is reached within any bound. *)
Theorem runs_until_asked_to_close fuel :
  glfwInit_ok env = true -> glfwCreateWindow_ok env = true ->
  (forall k, (k < fuel)%nat -> poll_closes env k = false) ->
  run env fuel = (setup_calls env ++ iterations env 0 fuel, OutOfFuel) /\
  List.length (filter is_draw (fst (run env fuel))) = fuel.
Proof.
  intros Hinit Hwin Hno.
  assert (Hrun : run env fuel = (setup_calls env ++ iterations env 0 fuel, OutOfFuel)).
  { destruct (run_shape fuel Hinit Hwin)
      as (n & Hbefore & [(Hlt & Hclosed & _) | (-> & Hrun)]); [|exact Hrun].
    apply closed_at_true_iff in Hclosed. destruct Hclosed as (j & Hj & Hc).
    rewrite Hno in Hc by lia. discriminate. }
  split; [exact Hrun|]. rewrite Hrun. cbn [fst].
  rewrite filter_app, length_app, draws_of_iterations, (setup_calls_eq Hinit Hwin).
  reflexivity.
Qed.

(** X5. All creation and configuration happens once, before the loop,
    however many frames are drawn: a run creates exactly one window, one
    buffer, two shaders, one program and one vertex array; no iteration
    creates, fills, compiles, links or configures anything; and every
    iteration activates the program created during setup. *)
Theorem setup_work_done_once fuel :
  glfwInit_ok env = true -> glfwCreateWindow_ok env = true ->
  filter is_object_creation (fst (run env fuel)) =
  [ GlfwCreateWindow 640 480 "OpenGL Triangle";
    GlGenBuffers 1;
    GlCreateShader GL_VERTEX_SHADER;
    GlCreateShader GL_FRAGMENT_SHADER;
    GlCreateProgram;
    GlGenVertexArrays 1 ] /\
  filter is_setup_work (fst (run env fuel)) =
  filter is_setup_work (setup_calls env) /\
  (forall k, filter is_setup_work (iteration_calls env k) = []) /\
  (forall k, filter is_use_program (iteration_calls env k) =
             [GlUseProgram (new_program env)]).
Proof.
  intros Hinit Hwin.
  assert (Hwork : forall k, filter is_setup_work (iteration_calls env k) = []).
  { intros k. unfold iteration_calls. rewrite body_calls_eq.
    cbn [filter is_setup_work app]. now rewrite filter_callbacks. }
  assert (Hcreate : forall k, filter is_object_creation (iteration_calls env k) = []).
  { intros k. unfold iteration_calls. rewrite body_calls_eq.
    cbn [filter is_object_creation app]. now rewrite filter_callbacks. }
  split; [|split; [|split; [exact Hwork|]]].
  - destruct (run_shape fuel Hinit Hwin)
      as (n & _ & [(_ & _ & ->) | (_ & ->)]); cbn [fst];
      rewrite !filter_app, (filter_iterations _ _ n 0 Hcreate), flat_map_nil,
        (setup_calls_eq Hinit Hwin); reflexivity.
  - destruct (run_shape fuel Hinit Hwin)
      as (n & _ & [(_ & _ & ->) | (_ & ->)]); cbn [fst];
      rewrite !filter_app, (filter_iterations _ _ n 0 Hwork), flat_map_nil;
      cbn [filter is_setup_work app]; now rewrite ?app_nil_r.
  - intros k. unfold iteration_calls. rewrite body_calls_eq.
    cbn [filter is_use_program app]. now rewrite filter_callbacks.
Qed.

(** X6. What the aspect ratio of an iteration can be, for a framebuffer
    size that fits C [int]s: a finite float whenever the height is not 0
    (so never a NaN, and no overflow); an infinity with the sign of the
    width when the height is 0 and the width is not; a NaN when both are
    0. That ratio is what the iteration's projection is built from. *)
Theorem aspect_ratio_classes k :
  int_range (width_at env k) -> int_range (height_at env k) ->
  (height_at env k <> 0 -> F32.is_finite (ratio_at env k) = true) /\
  (height_at env k = 0 -> width_at env k <> 0 ->
   ratio_at env k = S754_infinity (width_at env k <? 0)) /\
  (height_at env k = 0 -> width_at env k = 0 -> ratio_at env k = S754_nan) /\
  In (GlUniformMatrix4fv (uniform_location env "MVP") 1 GL_FALSE
        (mat4x4_mul
           (mat4x4_ortho (F32.neg (ratio_at env k)) (ratio_at env k)
              (F32.neg F32.one) F32.one F32.one (F32.neg F32.one))
           (mat4x4_rotate_Z mat4x4_identity (F32.of_double (clock env k)))))
     (body_calls env k).
Proof.
  unfold int_range, ratio_at. intros Hw Hh.
  split; [|split; [|split]].
  - intros Hnz.
    destruct (of_int_normal _ Hnz Hh) as (my & ey & -> & Hmy & Hey).
    destruct (Z.eq_dec (width_at env k) 0) as [-> | Hwnz]; [reflexivity|].
    destruct (of_int_normal _ Hwnz Hw) as (mx & ex & -> & Hmx & Hex).
    destruct (div_normal_finite (width_at env k <? 0) mx ex
                (height_at env k <? 0) my ey Hmx Hex Hmy Hey) as (m & e & Hdiv).
    unfold F32.div, F32.prec, F32.emax. now rewrite Hdiv.
  - intros -> Hwnz.
    destruct (of_int_normal _ Hwnz Hw) as (mx & ex & -> & _).
    cbn. now rewrite xorb_false_r.
  - intros -> ->. reflexivity.
  - rewrite body_calls_eq. apply in_or_app. left.
    unfold projection_at, model_at, ratio_at. cbn. auto 10.
Qed.

(** X7. What a poll does to the program depends only on which events it
    delivers, not on their order or number: two event lists with the same
    members leave the same state behind; and that state has the close
    flag set exactly if it was set before or one of the events is an
    Escape press or a close request. *)
Theorem poll_depends_on_event_set evs evs' w :
  (forall e, In e evs <-> In e evs') ->
  snd (for_each evs dispatch w) = snd (for_each evs' dispatch w) /\
  snd (for_each evs dispatch w) =
  Done tt {| should_close := should_close w || existsb requests_close evs;
             tick := tick w |}.
Proof.
  intros Hsame. rewrite !for_each_dispatch. cbn [snd]. split; [|reflexivity].
  assert (Heq : existsb requests_close evs = existsb requests_close evs').
  { apply eq_true_iff_eq. rewrite !existsb_exists.
    split; intros (e & Hin & He); exists e; (split; [apply Hsame; exact Hin | exact He]). }
  now rewrite Heq.
Qed.


End Facts.

Section TwoWorlds.

Context {LM : Linmath}.

(** X8. An iteration keeps nothing from earlier iterations and does not
    look at the close flag: the calls of the loop body are the same from
    any state with the same poll count, and in two worlds that give the
    same handles and, for this iteration, the same framebuffer size, the
    same time and the same events, the body makes the same calls. *)
Theorem frame_depends_on_its_inputs_only (env env' : Env) k :
  new_program env = new_program env' ->
  uniform_location env "MVP" = uniform_location env' "MVP" ->
  new_vertex_array env = new_vertex_array env' ->
  framebuffer_size env k = framebuffer_size env' k ->
  clock env k = clock env' k ->
  pending_events env k = pending_events env' k ->
  body_calls env k = body_calls env' k /\
  (forall w, tick w = k ->
     fst (loop_body env (new_program env) (uniform_location env "MVP")
            (new_vertex_array env) w) = body_calls env' k).
Proof.
  intros Hp Hu Hv Hs Hc He.
  assert (Heq : body_calls env k = body_calls env' k).
  { rewrite !body_calls_eq.
    unfold projection_at, model_at, ratio_at, width_at, height_at.
    now rewrite Hp, Hu, Hv, Hs, Hc, He. }
  split; [exact Heq|].
  intros w <-. now rewrite body_calls_run.
Qed.

End TwoWorlds.

(** * Concrete runs *)

(** The aspect ratio of a 640x480 framebuffer is the float nearest to 4/3
    (bits [0x3FAAAAAB]). *)
Example ratio_640_480 :
  ratio_at env_ok 0 = S754_finite false 0xAAAAAB (-23).
Proof. reflexivity. Qed.

(** A run of [env_ok]: two frames, Escape during the second poll. *)
Example run_env_ok :
  snd (run (LM := symbolic) env_ok 5) = Exited EXIT_SUCCESS /\
  List.length (filter is_draw (fst (run (LM := symbolic) env_ok 5))) = 2%nat.
Proof. split; reflexivity. Qed.

Lemma key_callback_escape_press_witness :
  key_callback (LM := symbolic) GLFW_KEY_ESCAPE 1 GLFW_PRESS 0 initial_world =
  ([GlfwSetWindowShouldClose GLFW_TRUE],
   Done tt {| should_close := true; tick := 0 |}) /\
  key_callback (LM := symbolic) GLFW_KEY_ESCAPE 1 GLFW_RELEASE 0 initial_world =
  ([], Done tt initial_world).
Proof.
  split.
  - apply (proj1 (key_callback_escape_press GLFW_KEY_ESCAPE 1 GLFW_PRESS 0 initial_world)).
    split; reflexivity.
  - apply (proj2 (key_callback_escape_press GLFW_KEY_ESCAPE 1 GLFW_RELEASE 0 initial_world)).
    intros [_ H]. discriminate H.
Defined.

(** C1 as stated fails: when the window is minimised the framebuffer
    height is 0 and the loop divides by zero. *)
Lemma division_by_zero_when_minimised :
  ~ never_divides_by_zero (LM := symbolic) env_minimised 5.
Proof. unfold never_divides_by_zero. vm_compute. discriminate. Qed.

Lemma division_by_zero_exactly_at_height_0_witness :
  height_at env_minimised 1 = 0 /\
  F32.is_finite (ratio_at env_minimised 1) = false /\
  In (GlDrawArrays GL_TRIANGLES 0 3) (body_calls (LM := symbolic) env_minimised 1).
Proof.
  split; [reflexivity|].
  pose proof (proj2 (proj2 (division_by_zero_exactly_at_height_0
                              (LM := symbolic) env_minimised 5)) 1%nat eq_refl)
    as (_ & Hratio & _ & Hdraw).
  split; [exact Hratio | exact Hdraw].
Defined.

Lemma exit_status_or_crash_witness :
  glfwInit_ok env_no_loader = true /\ glfwCreateWindow_ok env_no_loader = true /\
  gladLoadGL_ok env_no_loader = false /\
  snd (process (LM := symbolic) env_no_loader 5) = Crashed /\
  last (fst (process (LM := symbolic) env_no_loader 5)) GlfwInit = GlGenBuffers 1.
Proof.
  split; [reflexivity|]. split; [reflexivity|]. split; [reflexivity|].
  rewrite (proj1 (proj2 (proj2 (exit_status_or_crash (LM := symbolic) env_no_loader 5)))
             eq_refl eq_refl eq_refl).
  split; reflexivity.
Defined.

(** C4 as stated fails: with shaders that do not compile and a program
    that does not link, the program still enters the render loop, draws,
    and exits with status 0. *)
Lemma shader_failure_reaches_render_loop :
  ~ (vertex_shader_compiles env_bad_shaders = false ->
     fragment_shader_compiles env_bad_shaders = false ->
     program_links env_bad_shaders = false ->
     exits_with_failure (LM := symbolic) env_bad_shaders 5 /\
     existsb is_draw (fst (run (LM := symbolic) env_bad_shaders 5)) = false).
Proof.
  intros H. destruct (H eq_refl eq_refl eq_refl) as (_ & Hdraw).
  vm_compute in Hdraw. discriminate Hdraw.
Qed.

Lemma shader_status_not_checked_witness :
  glfwInit_ok env_ok = true /\ glfwCreateWindow_ok env_ok = true /\ (0 < 5)%nat /\
  In (GlDrawArrays GL_TRIANGLES 0 3)
     (fst (run (LM := symbolic) (with_shader_status false false false env_ok) 5)).
Proof.
  split; [reflexivity|]. split; [reflexivity|]. split; [lia|].
  apply (proj2 (shader_status_not_checked (LM := symbolic) env_ok 5)
           eq_refl eq_refl); lia.
Defined.

Lemma aspect_ratio_and_projection_witness :
  framebuffer_size env_ok 0 = (640, 480) /\ 0 < 480 /\
  F32.is_zero (F32.of_int 480) = false /\
  ratio_at env_ok 0 = F32.div (F32.of_int 640) (F32.of_int 480).
Proof.
  split; [reflexivity|]. split; [lia|].
  pose proof (aspect_ratio_and_projection (LM := symbolic) env_ok 0 640 480
                eq_refl eq_refl) as (Hnz & _ & Hratio & _).
  split; [exact Hnz | exact Hratio].
Defined.

(** After [2^25] seconds (a little over a year) the [float] angles of
    two frames [2 pi] seconds apart are 33554432 and 33554440: they
    differ by 8, not by [2 pi], and some entry of the two model matrices
    differs by more than 1. *)
Lemma angles_after_long_uptime :
  F32.of_double t_2_25 = S754_finite false 8388608 2 /\
  F32.of_double t_2_25_plus_2pi = S754_finite false 8388610 2 /\
  (Rabs (F2R t_2_25_plus_2pi - F2R t_2_25 - 2 * PI) <= 1 / 256)%R /\
  ~ within 1 (model_matrix t_2_25) (model_matrix t_2_25_plus_2pi).
Proof.
  assert (H1 : F32.of_double t_2_25 = S754_finite false 8388608 2)
    by (vm_compute; reflexivity).
  assert (H2 : F32.of_double t_2_25_plus_2pi = S754_finite false 8388610 2)
    by (vm_compute; reflexivity).
  assert (Hslack : (Rabs (F2R t_2_25_plus_2pi - F2R t_2_25 - 2 * PI) <= 1 / 256)%R).
  { unfold t_2_25, t_2_25_plus_2pi, F2R, scaled.
    pose proof PI_upper. pose proof PI_lower.
    rewrite (powerRZ_2_neg 27). change (2 ^ 27)%Z with 134217728%Z.
    apply Rabs_le. lra. }
  assert (Hfar : ~ within 1 (model_matrix t_2_25) (model_matrix t_2_25_plus_2pi)).
  { unfold model_matrix. rewrite H1, H2. unfold F2R, scaled.
    rewrite <- (IZR_pow2 2) by lia. change (2 ^ 2)%Z with 4%Z.
    replace (8388610 * 4)%R with (8388608 * 4 + 8)%R by lra.
    set (a := (8388608 * 4)%R). unfold within, rotation_Z. intros H.
    inversion H as [|r1 r1' rs rs' Hrow1 Hrest]; subst.
    inversion Hrest as [|r2 r2' rs2 rs2' Hrow2 _]; subst.
    inversion Hrow1 as [|x x' xs xs' Hcos _]; subst.
    inversion Hrow2 as [|y y' ys ys' Hsin _]; subst.
    apply (rotations_8_apart a); rewrite <- Rabs_Ropp.
    - replace (- (cos (a + 8) - cos a))%R with (cos a - cos (a + 8))%R by ring.
      exact Hcos.
    - replace (- (sin (a + 8) - sin a))%R with (sin a - sin (a + 8))%R by ring.
      exact Hsin. }
  repeat split; assumption.
Qed.

(** C7 as stated fails: no tolerance below 1 makes the model matrix
    periodic in time for every [t]. *)
Lemma model_not_periodic_after_long_uptime : ~ periodic_in_time (1 / 256) 1.
Proof.
  destruct angles_after_long_uptime as (_ & _ & Hslack & Hfar).
  intros Hper. apply Hfar. apply Hper; [reflexivity | reflexivity | exact Hslack].
Qed.

Lemma model_periodic_up_to_float_rounding_witness :
  clock_below 3 t_1 /\ clock_below 3 t_1_plus_2pi /\
  within (1 / 256 + powerRZ 2 (3 - 23)) (model_matrix t_1) (model_matrix t_1_plus_2pi).
Proof.
  assert (H1 : clock_below 3 t_1) by (cbn; lia).
  assert (H2 : clock_below 3 t_1_plus_2pi) by (cbn; lia).
  split; [exact H1|]. split; [exact H2|].
  apply (model_periodic_up_to_float_rounding 3 (1 / 256) t_1 t_1_plus_2pi);
    [lia | exact H1 | exact H2 |].
  unfold t_1, t_1_plus_2pi, F2R, scaled.
  pose proof PI_upper. pose proof PI_lower.
  rewrite (powerRZ_2_neg 52), (powerRZ_2_neg 50).
  change (2 ^ 52)%Z with 4503599627370496%Z.
  change (2 ^ 50)%Z with 1125899906842624%Z.
  apply Rabs_le. lra.
Defined.

Lemma attributes_agree_with_Vertex_witness :
  glfwInit_ok env_ok = true /\ glfwCreateWindow_ok env_ok = true /\
  filter is_attrib_pointer (fst (run (LM := symbolic) env_ok 5)) =
  [ GlVertexAttribPointer 1 2 GL_FLOAT false 20 0;
    GlVertexAttribPointer 0 3 GL_FLOAT false 20 8 ].
Proof.
  split; [reflexivity|]. split; [reflexivity|].
  exact (proj1 (attributes_agree_with_Vertex (LM := symbolic) env_ok 5
                  eq_refl eq_refl)).
Defined.

(** C9 as stated fails: the loop body does not start with the event poll
    and does not end with the swap. *)
Lemma body_does_not_poll_first :
  ~ polls_first_presents_last (body_calls (LM := symbolic) env_ok 0).
Proof. intros [Hfirst _]. vm_compute in Hfirst. discriminate Hfirst. Qed.

Lemma iteration_order_witness :
  glfwInit_ok env_ok = true /\ glfwCreateWindow_ok env_ok = true /\
  exists n tail,
    fst (run (LM := symbolic) env_ok 5) =
    setup_calls env_ok ++
    flat_map (fun k =>
      [ GlfwWindowShouldClose;
        GlfwGetFramebufferSize;
        FloatDiv (F32.of_int (width_at env_ok k)) (F32.of_int (height_at env_ok k));
        GlViewport 0 0 (width_at env_ok k) (height_at env_ok k);
        GlClear GL_COLOR_BUFFER_BIT;
        GlfwGetTime;
        GlUseProgram (new_program env_ok);
        GlUniformMatrix4fv (uniform_location env_ok "MVP") 1 GL_FALSE
          (mat4x4_mul (projection_at env_ok k) (model_at env_ok k));
        GlBindVertexArray (new_vertex_array env_ok);
        GlDrawArrays GL_TRIANGLES 0 3;
        GlfwSwapBuffers;
        GlfwPollEvents ]
        ++ flat_map callback_calls (pending_events env_ok k)) (seq 0 n)
    ++ tail /\
    (tail = [] \/
     tail = [GlfwWindowShouldClose; GlfwDestroyWindow; GlfwTerminate]).
Proof.
  split; [reflexivity|]. split; [reflexivity|].
  exact (iteration_order (LM := symbolic) env_ok 5 eq_refl eq_refl).
Defined.

Lemma close_flag_monotone_witness :
  glfwInit_ok env_ok = true /\ glfwCreateWindow_ok env_ok = true /\
  (2 < 5)%nat /\ closed_at env_ok 2 = true /\
  run (LM := symbolic) env_ok 5 =
  (setup_calls env_ok ++ iterations env_ok 0 2 ++
     [GlfwWindowShouldClose; GlfwDestroyWindow; GlfwTerminate],
   Exited EXIT_SUCCESS).
Proof.
  split; [reflexivity|]. split; [reflexivity|]. split; [lia|].
  split; [reflexivity|].
  apply (proj2 (proj2 (proj2 (proj2 (proj2
           (close_flag_monotone (LM := symbolic) env_ok 5)))))
           eq_refl eq_refl 2%nat); [lia| |reflexivity].
  intros [|[|j]] Hj; [reflexivity | reflexivity | lia].
Defined.

(** * Further concrete runs *)

Lemma resources_released_on_exit_witness :
  snd (run (LM := symbolic) env_ok 5) = Exited EXIT_SUCCESS /\
  filter is_terminate (fst (run (LM := symbolic) env_ok 5)) = [GlfwTerminate] /\
  filter is_destroy_window (fst (run (LM := symbolic) env_ok 5)) = [GlfwDestroyWindow].
Proof.
  split; [reflexivity|].
  pose proof (resources_released_on_exit (LM := symbolic) env_ok 5 EXIT_SUCCESS
                eq_refl) as (Hterm & Hdestroy & _).
  split; [exact Hterm | exact Hdestroy].
Defined.

Lemma closing_event_ends_after_its_frame_witness :
  glfwInit_ok env_closed_at_once = true /\
  glfwCreateWindow_ok env_closed_at_once = true /\
  In CloseRequest (pending_events env_closed_at_once 0) /\
  requests_close CloseRequest = true /\ (1 < 3)%nat /\
  List.length (filter is_draw (fst (run (LM := symbolic) env_closed_at_once 3)))
  = 1%nat.
Proof.
  split; [reflexivity|]. split; [reflexivity|].
  split; [right; left; reflexivity|]. split; [reflexivity|]. split; [lia|].
  apply (closing_event_ends_after_its_frame (LM := symbolic) env_closed_at_once
           3 0 CloseRequest eq_refl eq_refl).
  - intros j Hj. lia.
  - right. left. reflexivity.
  - reflexivity.
  - lia.
Defined.

Lemma runs_until_asked_to_close_witness :
  glfwInit_ok env_idle = true /\ glfwCreateWindow_ok env_idle = true /\
  snd (run (LM := symbolic) env_idle 4) = OutOfFuel /\
  List.length (filter is_draw (fst (run (LM := symbolic) env_idle 4))) = 4%nat.
Proof.
  split; [reflexivity|]. split; [reflexivity|].
  pose proof (runs_until_asked_to_close (LM := symbolic) env_idle 4
                eq_refl eq_refl (fun k _ => eq_refl)) as (Hrun & Hdraws).
  split; [now rewrite Hrun | exact Hdraws].
Defined.

Lemma setup_work_done_once_witness :
  glfwInit_ok env_ok = true /\ glfwCreateWindow_ok env_ok = true /\
  filter is_object_creation (fst (run (LM := symbolic) env_ok 5)) =
  [ GlfwCreateWindow 640 480 "OpenGL Triangle";
    GlGenBuffers 1;
    GlCreateShader GL_VERTEX_SHADER;
    GlCreateShader GL_FRAGMENT_SHADER;
    GlCreateProgram;
    GlGenVertexArrays 1 ].
Proof.
  split; [reflexivity|]. split; [reflexivity|].
  exact (proj1 (setup_work_done_once (LM := symbolic) env_ok 5 eq_refl eq_refl)).
Defined.

Lemma int_range_640 : int_range 640.
Proof. unfold int_range. simpl. lia. Defined.

Lemma int_range_480 : int_range 480.
Proof. unfold int_range. simpl. lia. Defined.

Lemma aspect_ratio_classes_witness :
  int_range (width_at env_ok 0) /\ int_range (height_at env_ok 0) /\
  height_at env_ok 0 <> 0 /\
  F32.is_finite (ratio_at env_ok 0) = true.
Proof.
  split; [exact int_range_640|]. split; [exact int_range_480|].
  split; [discriminate|].
  apply (proj1 (aspect_ratio_classes (LM := symbolic) env_ok 0
                  int_range_640 int_range_480)).
  discriminate.
Defined.

Lemma poll_depends_on_event_set_witness :
  (forall e, In e [CloseRequest; KeyEvent 65 30 GLFW_PRESS 0] <->
             In e [KeyEvent 65 30 GLFW_PRESS 0; CloseRequest; CloseRequest]) /\
  snd (for_each (LM := symbolic) [CloseRequest; KeyEvent 65 30 GLFW_PRESS 0]
         dispatch initial_world) =
  snd (for_each (LM := symbolic)
         [KeyEvent 65 30 GLFW_PRESS 0; CloseRequest; CloseRequest]
         dispatch initial_world).
Proof.
  assert (Hsame : forall e, In e [CloseRequest; KeyEvent 65 30 GLFW_PRESS 0] <->
                            In e [KeyEvent 65 30 GLFW_PRESS 0; CloseRequest; CloseRequest]).
  { intros e. cbn. tauto. }
  split; [exact Hsame|].
  exact (proj1 (poll_depends_on_event_set (LM := symbolic) _ _ initial_world Hsame)).
Defined.

Lemma frame_depends_on_its_inputs_only_witness :
  framebuffer_size env_ok 0 = framebuffer_size env_minimised 0 /\
  body_calls (LM := symbolic) env_ok 0 = body_calls env_minimised 0.
Proof.
  split; [reflexivity|].
  exact (proj1 (frame_depends_on_its_inputs_only (LM := symbolic)
                  env_ok env_minimised 0
                  eq_refl eq_refl eq_refl eq_refl eq_refl eq_refl)).
Defined.

